(** * tennis-intel: the request handlers of [src/index.ts]

    The service fetches JSON from the ESPN tennis API and reshapes it.  The
    upstream documents are untyped ([any] in the source), so the embedding
    works on a type of JavaScript values and spells out what each property
    access, optional chain, [||] default, [slice], [map], [filter], [sort] and
    [for ... of] of the source does on every value, exceptions included. *)

From Stdlib Require Import ZArith List String Ascii Bool Lia Permutation Sorted.
From Stdlib Require Import DecimalString.
Import ListNotations.

Set Warnings "-register-all".

Local Open Scope string_scope.
Local Open Scope list_scope.
Local Open Scope Z_scope.

(** ** JavaScript values *)

Module JS.

(** A number.  The numbers the handlers compute with are ranks, limits and
    epoch milliseconds: [Num z] is the number whose value is the integer
    [z].  [NaN] is what arithmetic on a missing field and an unparsable date
    give, [Inf] is what a JSON literal and a difference too large for a
    double give. *)
Inductive num : Type :=
| NaN
| Num (z : Z)
| Inf (negative : bool).

Inductive jsval : Type :=
| JUndefined
| JNull
| JBool (b : bool)
| JNum (n : num)
| JStr (s : string)
| JArr (elems : list jsval)
| JObj (fields : list (string * jsval)).

(** What a handler can throw. [ESPNError s] is
    [new Error(`ESPN API error: ${s}`)]. *)
Inductive error : Type :=
| ESPNError (status : Z)
| FetchFailed
| JSONSyntaxError
| TypeError
| ValidationError.

Inductive result (A : Type) : Type :=
| Ok (a : A)
| Throw (e : error).
Arguments Ok {A} a.
Arguments Throw {A} e.

Definition bind {A B} (m : result A) (f : A -> result B) : result B :=
  match m with
  | Ok a => f a
  | Throw e => Throw e
  end.

Fixpoint mapM {A B} (f : A -> result B) (l : list A) : result (list B) :=
  match l with
  | [] => Ok []
  | x :: l' =>
      bind (f x) (fun y => bind (mapM f l') (fun ys => Ok (y :: ys)))
  end.

Definition nullish (v : jsval) : bool :=
  match v with
  | JUndefined | JNull => true
  | _ => false
  end.

Definition ToBoolean (v : jsval) : bool :=
  match v with
  | JUndefined | JNull => false
  | JBool b => b
  | JNum NaN => false
  | JNum (Num z) => negb (z =? 0)
  | JNum (Inf _) => true
  | JStr s => negb (String.eqb s "")
  | JArr _ | JObj _ => true
  end.

(** [a || b] *)
Definition or_else (a b : jsval) : jsval := if ToBoolean a then a else b.

Fixpoint lookup (k : string) (fs : list (string * jsval)) : jsval :=
  match fs with
  | [] => JUndefined
  | (k', v) :: fs' => if String.eqb k k' then v else lookup k fs'
  end.

Definition keys (v : jsval) : list string :=
  match v with
  | JObj fs => map fst fs
  | _ => []
  end.

(** [v.k] on a value that is not null or undefined, for a key [k] of the
    upstream documents.  None of the keys the handlers read is a built-in
    property of a string, number, boolean or array, so only an object has
    them. *)
Definition get (v : jsval) (k : string) : jsval :=
  match v with
  | JObj fs => lookup k fs
  | _ => JUndefined
  end.

(** [v[0]] on a value that is not null or undefined. *)
Definition get0 (v : jsval) : jsval :=
  match v with
  | JObj fs => lookup "0" fs
  | JArr (x :: _) => x
  | JStr (String c _) => JStr (String c EmptyString)
  | _ => JUndefined
  end.

(** [v.k]: reading a property of null or undefined throws. *)
Definition prop (v : jsval) (k : string) : result jsval :=
  if nullish v then Throw TypeError else Ok (get v k).

(** [v?.k] and [v?.[0]] *)
Definition oprop (v : jsval) (k : string) : jsval :=
  if nullish v then JUndefined else get v k.

Definition oget0 (v : jsval) : jsval :=
  if nullish v then JUndefined else get0 v.

(** *** Numbers and strings *)

(** The double an integer rounds to.  A double carries 53 significant bits:
    below 2^53 every integer is one; above, the integer is rounded to the
    nearest multiple of the power of two that leaves 53 bits, a tie to the
    multiple with an even 53-bit significand; what rounds to 2^1024 or above
    is infinite. *)
Definition round_double (z : Z) : num :=
  let a := Z.abs z in
  if a <? 2 ^ 53 then Num z
  else
    let s := Z.log2 a - 52 in
    let q := a / 2 ^ s in
    let r := a mod 2 ^ s in
    let q' := if (2 ^ (s - 1) <? r) || ((r =? 2 ^ (s - 1)) && Z.odd q)
              then q + 1 else q in
    if 2 ^ 1024 <=? q' * 2 ^ s then Inf (z <? 0)
    else Num (Z.sgn z * (q' * 2 ^ s)).

(** [a - b] on numbers: the exact difference, rounded to a double. *)
Definition num_sub (a b : num) : num :=
  match a, b with
  | Num x, Num y => round_double (x - y)
  | Inf s, Num _ => Inf s
  | Num _, Inf s => Inf (negb s)
  | Inf s, Inf t => if Bool.eqb s t then NaN else Inf s
  | _, _ => NaN
  end.

Definition string_of_Z (z : Z) : string := NilZero.string_of_int (Z.to_int z).

Definition num_to_string (n : num) : string :=
  match n with
  | NaN => "NaN"
  | Num z => string_of_Z z
  | Inf false => "Infinity"
  | Inf true => "-Infinity"
  end.

Fixpoint has_key (k : string) (fs : list (string * jsval)) : bool :=
  match fs with
  | [] => false
  | (k', _) :: fs' => String.eqb k k' || has_key k fs'
  end.

(** [String(v)], the string an object or array turns into when it is used as
    a number or a date.  A number prints in decimal.  An array joins its
    elements with commas, null and undefined elements as the empty string.
    A plain object gives
    ["[object Object]"], unless the document gave it a key [toString] of its
    own: that value is not callable and the conversion throws. *)
Fixpoint ToString (v : jsval) : result string :=
  match v with
  | JUndefined => Ok "undefined"
  | JNull => Ok "null"
  | JBool true => Ok "true"
  | JBool false => Ok "false"
  | JNum n => Ok (num_to_string n)
  | JStr s => Ok s
  | JArr l =>
      let elem x := if nullish x then Ok "" else ToString x in
      (fix join (l : list jsval) : result string :=
         match l with
         | [] => Ok ""
         | [x] => elem x
         | x :: l' =>
             bind (elem x) (fun s => bind (join l') (fun r => Ok (String.append s (String.append "," r))))
         end) l
  | JObj fs => if has_key "toString" fs then Throw TypeError else Ok "[object Object]"
  end.

(** The values of a [Set] compare by SameValueZero.  An array or an object is
    only the same value as itself, and the values compared here come from
    different places of the parsed documents, so two of them never are. *)
Definition same_value_zero (a b : jsval) : bool :=
  match a, b with
  | JUndefined, JUndefined => true
  | JNull, JNull => true
  | JBool x, JBool y => Bool.eqb x y
  | JNum NaN, JNum NaN => true
  | JNum (Num x), JNum (Num y) => x =? y
  | JNum (Inf x), JNum (Inf y) => Bool.eqb x y
  | JStr x, JStr y => String.eqb x y
  | _, _ => false
  end.

(** [v === s] for a string literal [s] *)
Definition strict_eq_str (v : jsval) (s : string) : bool :=
  match v with
  | JStr x => String.eqb x s
  | _ => false
  end.

Fixpoint is_prefix (q s : string) : bool :=
  match q, s with
  | EmptyString, _ => true
  | String a q', String b s' => Ascii.eqb a b && is_prefix q' s'
  | String _ _, EmptyString => false
  end.

(** [s.includes(q)] *)
Fixpoint includes (s q : string) : bool :=
  is_prefix q s ||
  match s with
  | EmptyString => false
  | String _ s' => includes s' q
  end.

Fixpoint chars (s : string) : list jsval :=
  match s with
  | EmptyString => []
  | String c s' => JStr (String c EmptyString) :: chars s'
  end.

(** *** Arrays *)

Definition clamp_index (len i : Z) : Z :=
  if i <? 0 then Z.max (len + i) 0 else Z.min i len.

(** [l.slice(from, to)] with integer bounds: a negative bound counts from the
    end. *)
Definition slice {A} (l : list A) (from to : Z) : list A :=
  let len := Z.of_nat (List.length l) in
  let k := clamp_index len from in
  let final := clamp_index len to in
  firstn (Z.to_nat (final - k)) (skipn (Z.to_nat k) l).

Definition string_slice (s : string) (from to : Z) : string :=
  string_of_list_ascii (slice (list_ascii_of_string s) from to).

(** [v.slice(from, to)] on a value that is not null or undefined: the array
    and string methods; on anything else [v.slice] is not a function. *)
Definition call_slice (v : jsval) (from to : Z) : result jsval :=
  match v with
  | JArr l => Ok (JArr (slice l from to))
  | JStr s => Ok (JStr (string_slice s from to))
  | _ => Throw TypeError
  end.

(** [v.map(f)]: only an array has [map]. *)
Definition call_map (v : jsval) (f : jsval -> result jsval) : result jsval :=
  match v with
  | JArr l => bind (mapM f l) (fun l' => Ok (JArr l'))
  | _ => Throw TypeError
  end.

(** The values [for (const x of v)] runs through: the elements of an array,
    the characters of a string; nothing else in a JSON document is iterable. *)
Definition iterate (v : jsval) : result (list jsval) :=
  match v with
  | JArr l => Ok l
  | JStr s => Ok (chars s)
  | _ => Throw TypeError
  end.

(** [v.length] *)
Definition get_length (v : jsval) : jsval :=
  match v with
  | JArr l => JNum (Num (Z.of_nat (List.length l)))
  | JStr s => JNum (Num (Z.of_nat (String.length s)))
  | JObj fs => lookup "length" fs
  | _ => JUndefined
  end.

(** [l.sort(cmp)].  ECMAScript asks for a stable sort and reads a comparator
    result that is NaN as 0; for a consistent comparator the result below is
    the one every engine returns.  [x] is inserted in front of the first
    element it does not compare greater than.  A comparator that throws ends
    the sort. *)
Section Sort.
Context {A : Type} (cmp : A -> A -> result num).

Definition positive (n : num) : bool :=
  match n with
  | Num z => 0 <? z
  | Inf negative => negb negative
  | NaN => false
  end.

Fixpoint insert (x : A) (l : list A) : result (list A) :=
  match l with
  | [] => Ok [x]
  | y :: l' =>
      bind (cmp x y) (fun n =>
        if positive n
        then bind (insert x l') (fun r => Ok (y :: r))
        else Ok (x :: y :: l'))
  end.

Fixpoint sort (l : list A) : result (list A) :=
  match l with
  | [] => Ok []
  | x :: l' => bind (sort l') (insert x)
  end.
End Sort.

End JS.

Import JS.

Notation "x <- m ;; k" := (bind m (fun x => k))
  (at level 61, m at next level, right associativity).

(** ** One concrete engine

    The handlers are embedded over the engine's [toLowerCase], string to
    number conversion and [Date.parse].  The instances below cover ASCII
    letters, decimal integer literals and the date-only ISO form, and serve to
    run the handlers on concrete documents. *)

Module Engine.

Definition lower_ascii (c : ascii) : ascii :=
  let n := N_of_ascii c in
  if (N.leb 65 n && N.leb n 90)%bool then ascii_of_N (n + 32) else c.

Fixpoint toLowerCase (s : string) : string :=
  match s with
  | EmptyString => EmptyString
  | String c s' => String (lower_ascii c) (toLowerCase s')
  end.

Definition digit (c : ascii) : option Z :=
  let n := N_of_ascii c in
  if (N.leb 48 n && N.leb n 57)%bool then Some (Z.of_N n - 48) else None.

Fixpoint digits (acc : Z) (s : string) : option Z :=
  match s with
  | EmptyString => Some acc
  | String c s' =>
      match digit c with
      | Some d => digits (10 * acc + d) s'
      | None => None
      end
  end.

Definition natural (s : string) : num :=
  match s with
  | EmptyString => NaN
  | "Infinity" => Inf false
  | _ => match digits 0 s with Some z => Num z | None => NaN end
  end.

(** The empty string is 0, an optionally signed run of digits its value,
    [Infinity] with its sign infinite. *)
Definition StringToNumber (s : string) : num :=
  match s with
  | EmptyString => Num 0
  | String "-" s' =>
      match natural s' with
      | Num z => Num (- z)
      | Inf negative => Inf (negb negative)
      | NaN => NaN
      end
  | _ => natural s
  end.

(** Days from 1970-01-01 to the civil date [y]-[m]-[d]. *)
Definition days_from_civil (y m d : Z) : Z :=
  let y' := if m <=? 2 then y - 1 else y in
  let era := y' / 400 in
  let yoe := y' - era * 400 in
  let doy := (153 * (if 2 <? m then m - 3 else m + 9) + 2) / 5 + d - 1 in
  let doe := yoe * 365 + yoe / 4 - yoe / 100 + doy in
  era * 146097 + doe - 719468.

(** [Date.parse] on [YYYY-MM-DD]: midnight UTC of that day in milliseconds. *)
Definition Date_parse (s : string) : num :=
  match digits 0 (substring 0 4 s), digits 0 (substring 5 2 s),
        digits 0 (substring 8 2 s) with
  | Some y, Some m, Some d =>
      if (Nat.eqb (String.length s) 10
          && String.eqb (substring 4 1 s) "-"
          && String.eqb (substring 7 1 s) "-"
          && (1 <=? m) && (m <=? 12) && (1 <=? d) && (d <=? 31))%bool
      then Num (days_from_civil y m d * 86400000)
      else NaN
  | _, _, _ => NaN
  end.

End Engine.

(** ** The service *)

(** What [fetch] comes back with: a rejected promise (no connection), or a
    response with its status and its body as [response.json()] reads it,
    [None] when the body is not JSON. *)
Inductive fetch_outcome : Type :=
| Rejected
| Response (status : Z) (body : option jsval).

(** A handler's promise: the requests it has sent upstream, in order, and how
    it settles. *)
Definition M (A : Type) : Type := (list string * result A)%type.

Definition requests {A} (m : M A) : list string := fst m.
Definition outcome {A} (m : M A) : result A := snd m.

(** [await p] followed by code that sends nothing. *)
Definition and_then {A B} (p : M A) (k : A -> result B) : M B :=
  (requests p, bind (outcome p) k).

(** [Promise.all(ps)]: every request of [ps] has been sent when it is
    awaited; it rejects when one of [ps] does.  When several do, the error
    kept here is that of the first in the array; the engine keeps that of
    the first in time. *)
Definition promise_all {A} (ps : list (M A)) : M (list A) :=
  (List.concat (map requests ps), mapM outcome ps).

Inductive tour_sel : Type := atp | wta | both.

Definition tour_name (t : tour_sel) : string :=
  match t with
  | atp => "atp"
  | wta => "wta"
  | both => "both"
  end.

(** The two [if]s that fill [urls]. *)
Definition selected {A} (t : tour_sel) (a w : A) : list A :=
  (match t with atp | both => [a] | wta => [] end)
  ++ (match t with wta | both => [w] | atp => [] end).

Definition atp_rankings_url :=
  "https://site.api.espn.com/apis/site/v2/sports/tennis/atp/rankings".
Definition wta_rankings_url :=
  "https://site.api.espn.com/apis/site/v2/sports/tennis/wta/rankings".
Definition atp_news_url :=
  "https://site.api.espn.com/apis/site/v2/sports/tennis/atp/news".
Definition wta_news_url :=
  "https://site.api.espn.com/apis/site/v2/sports/tennis/wta/news".
Definition atp_scoreboard_url :=
  "https://site.api.espn.com/apis/site/v2/sports/tennis/atp/scoreboard".
Definition wta_scoreboard_url :=
  "https://site.api.espn.com/apis/site/v2/sports/tennis/wta/scoreboard".

(** [response.ok] *)
Definition ok (status : Z) : bool := (200 <=? status) && (status <=? 299).

(** *** Input schemas

    [z.number().optional().default(d)], [z.string()] and
    [z.enum(['atp', 'wta', 'both']).optional().default('both')] on the value
    found under the key, and [z.object] around them.  A limit is held as the
    integer it is: NaN fails [z.number()], and so do the infinities. *)

Definition z_number_default (d : Z) (v : jsval) : result Z :=
  match v with
  | JUndefined => Ok d
  | JNum (Num z) => Ok z
  | _ => Throw ValidationError
  end.

Definition z_string (v : jsval) : result string :=
  match v with
  | JStr s => Ok s
  | _ => Throw ValidationError
  end.

Definition z_tour_default (v : jsval) : result tour_sel :=
  match v with
  | JUndefined => Ok both
  | JStr s =>
      if String.eqb s "atp" then Ok atp
      else if String.eqb s "wta" then Ok wta
      else if String.eqb s "both" then Ok both
      else Throw ValidationError
  | _ => Throw ValidationError
  end.

Definition z_object {A} (v : jsval) (fields : jsval -> result A) : result A :=
  match v with
  | JObj _ => fields v
  | _ => Throw ValidationError
  end.

Record rankings_input := { r_limit : Z }.
Record news_input := { n_tour : tour_sel; n_limit : Z }.
Record matches_input := { m_tour : tour_sel }.
Record search_input := { s_query : string; s_tour : tour_sel }.

Definition rankings_schema (raw : jsval) : result rankings_input :=
  z_object raw (fun o =>
    limit <- z_number_default 50 (get o "limit");;
    Ok {| r_limit := limit |}).

Definition news_schema (raw : jsval) : result news_input :=
  z_object raw (fun o =>
    tour <- z_tour_default (get o "tour");;
    limit <- z_number_default 10 (get o "limit");;
    Ok {| n_tour := tour; n_limit := limit |}).

Definition matches_schema (raw : jsval) : result matches_input :=
  z_object raw (fun o =>
    tour <- z_tour_default (get o "tour");;
    Ok {| m_tour := tour |}).

Definition search_schema (raw : jsval) : result search_input :=
  z_object raw (fun o =>
    query <- z_string (get o "query");;
    tour <- z_tour_default (get o "tour");;
    Ok {| s_query := query; s_tour := tour |}).

(** Modelled from the spec: the capability registry, which is not part of
    the sources, checks the input against the entrypoint's schema and calls
    the handler only when it passes; a rejected input sends nothing
    upstream. *)
Definition entrypoint {I} (schema : jsval -> result I) (handler : I -> M jsval)
    (raw : jsval) : M jsval :=
  match schema raw with
  | Ok input => handler input
  | Throw e => ([], Throw e)
  end.

(** ** Concrete upstream documents *)

Module Examples.

Definition athlete (displayName firstName lastName : string) : jsval :=
  JObj [("displayName", JStr displayName);
        ("firstName", JStr firstName);
        ("lastName", JStr lastName)].

Definition ranked (current previous : Z) (who : jsval) : jsval :=
  JObj [("current", JNum (Num current));
        ("previous", JNum (Num previous));
        ("points", JNum (Num 1000));
        ("athlete", who)].

Definition rankings_doc (ranks : list jsval) : jsval :=
  JObj [("rankings", JArr [JObj [("ranks", JArr ranks)]])].

Definition atp_three : list jsval :=
  [ranked 1 2 (athlete "Jannik Sinner" "Jannik" "Sinner");
   ranked 2 1 (athlete "Carlos Alcaraz" "Carlos" "Alcaraz");
   ranked 3 3 (athlete "Novak Djokovic" "Novak" "Djokovic")].

Definition wta_two : list jsval :=
  [ranked 1 1 (athlete "Aryna Sabalenka" "Aryna" "Sabalenka");
   ranked 2 3 (athlete "Iga Swiatek" "Iga" "Swiatek")].

(** Both rankings endpoints answer 200. *)
Definition rankings_net (url : string) : fetch_outcome :=
  if String.eqb url atp_rankings_url
  then Response 200 (Some (rankings_doc atp_three))
  else Response 200 (Some (rankings_doc wta_two)).

(** An ATP list of 102 players. *)
Definition long_net (url : string) : fetch_outcome :=
  Response 200
    (Some (rankings_doc
             (repeat (ranked 1 1 (athlete "A Player" "A" "Player")) 102))).

Definition competition (state startDate : string) (names : list string)
    : jsval :=
  JObj [("status", JObj [("type", JObj [("state", JStr state);
                                         ("description", JStr state)])]);
        ("startDate", JStr startDate);
        ("competitors",
         JArr (map (fun n => JObj [("athlete", JObj [("displayName", JStr n)]);
                                   ("linescores", JArr [JObj [("value", JNum (Num 6))]])])
                   names))].

Definition scoreboard_doc : jsval :=
  JObj [("events", JArr [
    JObj [("name", JStr "Open");
          ("competitions", JArr [
             competition "post" "2026-01-01" ["A"; "B"];
             competition "in" "2026-01-03" ["C"; "D"];
             competition "pre" "2026-01-04" ["E"; "F"];
             competition "in" "2026-01-02" ["G"; "H"]])]])].

Definition scoreboard_net (url : string) : fetch_outcome :=
  Response 200 (Some scoreboard_doc).

(** An ATP list whose only entry has no [athlete]. *)
Definition nameless_net (url : string) : fetch_outcome :=
  Response 200
    (Some (rankings_doc [JObj [("current", JNum (Num 7));
                               ("previous", JNum (Num 9));
                               ("points", JNum (Num 1000))]])).

(** The input [{ query: '' }]. *)
Definition empty_query : jsval := JObj [("query", JStr "")].

Definition story (id published : string) : jsval :=
  JObj [("id", JStr id); ("headline", JStr "Headline");
        ("published", JStr published)].

(** The ATP feed and the WTA feed both carry the story [a]; the ATP feed has
    the newer story [b] as well. *)
Definition news_net (url : string) : fetch_outcome :=
  if String.eqb url atp_news_url
  then Response 200 (Some (JObj [("articles",
         JArr [story "a" "2024-01-01"; story "b" "2024-01-03"])]))
  else Response 200 (Some (JObj [("articles",
         JArr [story "a" "2024-01-02"])])).

(** The ATP feed carries the story [a] twice, the older copy first. *)
Definition twice_net (url : string) : fetch_outcome :=
  Response 200 (Some (JObj [("articles",
    JArr [story "a" "2024-01-01"; story "a" "2024-01-02"])])).

(** Both rankings endpoints answer with an empty list. *)
Definition empty_net (url : string) : fetch_outcome :=
  Response 200 (Some (rankings_doc [])).

(** The provider answers 503. *)
Definition down_net (url : string) : fetch_outcome := Response 503 None.

Definition clock : string := "2026-01-01T00:00:00.000Z".

(** The rankings endpoints answer with the document [{}]. *)
Definition bare_net (url : string) : fetch_outcome :=
  Response 200 (Some (JObj [])).

(** The rankings endpoints answer with a list whose second entry is null. *)
Definition holed_net (url : string) : fetch_outcome :=
  Response 200
    (Some (rankings_doc
             [ranked 1 1 (athlete "Jannik Sinner" "Jannik" "Sinner"); JNull])).

(** A payment tracker and what the analytics package answers for it. *)
Definition tracker : jsval := JObj [("id", JStr "tracker")].

Definition summary_doc : jsval :=
  JObj [("outgoingTotal", JNum (Num 1500));
        ("incomingTotal", JNum (Num 9007199254740993));
        ("netTotal", JNum (Num 9007199254739493));
        ("transactionCount", JNum (Num 3))].

Definition transactions : list jsval :=
  [JObj [("id", JStr "t1")]; JObj [("id", JStr "t2")];
   JObj [("id", JStr "t3")]].

Definition getSummary (t windowMs : jsval) : result jsval := Ok summary_doc.
Definition getAllTransactions (t windowMs : jsval) : result jsval :=
  Ok (JArr transactions).
Definition exportToCSV (t windowMs : jsval) : result jsval :=
  Ok (JStr "id,amount").

End Examples.

Section Service.

(** The engine: [s.toLowerCase()], the number a string converts to, and
    [Date.parse(s)] (milliseconds since the epoch, NaN when [s] is no
    date). *)
Variable toLowerCase : string -> string.
Variable StringToNumber : string -> num.
Variable Date_parse : string -> num.

(** The upstream provider at the time of the request, and the clock reading
    [new Date().toISOString()] of the response. *)
Variable net : string -> fetch_outcome.
Variable now : string.

(** [Number(v)] *)
Definition ToNumber (v : jsval) : result num :=
  match v with
  | JUndefined => Ok NaN
  | JNull => Ok (Num 0)
  | JBool b => Ok (Num (if b then 1 else 0))
  | JNum n => Ok n
  | JStr s => Ok (StringToNumber s)
  | JArr _ | JObj _ => s <- ToString v;; Ok (StringToNumber s)
  end.

(** [a - b] *)
Definition js_sub (a b : jsval) : result num :=
  x <- ToNumber a;;
  y <- ToNumber b;;
  Ok (num_sub x y).

(** A time value outside of 8.64e15 milliseconds around the epoch is no
    date. *)
Definition TimeClip (n : num) : num :=
  match n with
  | Num z => if Z.abs z <=? 8640000000000000 then Num z else NaN
  | NaN | Inf _ => NaN
  end.

(** [new Date(v).getTime()] *)
Definition time_of (v : jsval) : result num :=
  match v with
  | JStr s => Ok (Date_parse s)
  | JArr _ | JObj _ => s <- ToString v;; Ok (Date_parse s)
  | _ => n <- ToNumber v;; Ok (TimeClip n)
  end.

(** *** fetchESPN *)
Definition fetchESPN (url : string) : M jsval :=
  ([url],
   match net url with
   | Rejected => Throw FetchFailed
   | Response status body =>
       if negb (ok status) then Throw (ESPNError status)
       else match body with
            | Some json => Ok json
            | None => Throw JSONSyntaxError
            end
   end).

(** [data.rankings?.[0]?.ranks] *)
Definition ranks_of (data : jsval) : result jsval :=
  rankings <- prop data "rankings";;
  Ok (oprop (oget0 rankings) "ranks").

(** [data.rankings?.[0]?.ranks?.slice(0, limit).map(entry) || []] *)
Definition ranks_slice_map (data : jsval) (limit : Z)
    (entry : jsval -> result jsval) : result jsval :=
  ranks <- ranks_of data;;
  mapped <- (if nullish ranks then Ok JUndefined
             else sliced <- call_slice ranks 0 limit;;
                  call_map sliced entry);;
  Ok (or_else mapped (JArr [])).

(** *** overview *)
Definition top5_entry (r : jsval) : result jsval :=
  if nullish r then Throw TypeError
  else Ok (JObj [("rank", get r "current");
                 ("name", oprop (get r "athlete") "displayName");
                 ("points", get r "points")]).

Definition overview_output (atpData wtaData : jsval) : result jsval :=
  atpTop5 <- ranks_slice_map atpData 5 top5_entry;;
  wtaTop5 <- ranks_slice_map wtaData 5 top5_entry;;
  Ok (JObj [("output", JObj [
    ("atp", JObj [("label", JStr "ATP Top 5"); ("players", atpTop5)]);
    ("wta", JObj [("label", JStr "WTA Top 5"); ("players", wtaTop5)]);
    ("fetchedAt", JStr now);
    ("dataSource", JStr "ESPN Tennis API (live)")])]).

Definition overview : M jsval :=
  and_then
    (promise_all [fetchESPN atp_rankings_url; fetchESPN wta_rankings_url])
    (fun both_data =>
       match both_data with
       | [atpData; wtaData] => overview_output atpData wtaData
       | _ => Throw TypeError
       end).

(** *** atp-rankings and wta-rankings *)
Definition ranking_entry (r : jsval) : result jsval :=
  if nullish r then Throw TypeError
  else
    movement <- js_sub (get r "previous") (get r "current");;
    Ok (JObj [("rank", get r "current");
              ("previousRank", get r "previous");
              ("movement", JNum movement);
              ("trend", get r "trend");
              ("name", oprop (get r "athlete") "displayName");
              ("firstName", oprop (get r "athlete") "firstName");
              ("lastName", oprop (get r "athlete") "lastName");
              ("id", oprop (get r "athlete") "id");
              ("points", get r "points");
              ("profileUrl",
               oprop (oget0 (oprop (get r "athlete") "links")) "href")]).

Definition rankings_output (label : string) (data : jsval)
    (input : rankings_input) : result jsval :=
  let limit := Z.min (r_limit input) 100 in
  rankings <- ranks_slice_map data limit ranking_entry;;
  Ok (JObj [("output", JObj [
    ("tour", JStr label);
    ("totalRanked", get_length rankings);
    ("rankings", rankings);
    ("fetchedAt", JStr now)])]).

Definition atp_rankings (input : rankings_input) : M jsval :=
  and_then (fetchESPN atp_rankings_url)
           (fun data => rankings_output "ATP" data input).

Definition wta_rankings (input : rankings_input) : M jsval :=
  and_then (fetchESPN wta_rankings_url)
           (fun data => rankings_output "WTA" data input).

(** *** news *)

(** [a.categories?.map((c) => c.description).filter(Boolean)] *)
Definition categories_of (a : jsval) : result jsval :=
  let cats := get a "categories" in
  if nullish cats then Ok JUndefined
  else
    descriptions <- call_map cats (fun c => prop c "description");;
    match descriptions with
    | JArr l => Ok (JArr (filter ToBoolean l))
    | _ => Throw TypeError
    end.

Definition article (a : jsval) : result jsval :=
  if nullish a then Throw TypeError
  else
    categories <- categories_of a;;
    Ok (JObj [("id", get a "id");
              ("headline", get a "headline");
              ("description", get a "description");
              ("published", get a "published");
              ("lastModified", get a "lastModified");
              ("type", get a "type");
              ("imageUrl", oprop (oget0 (get a "images")) "url");
              ("link",
               or_else (oprop (oprop (get a "links") "web") "href")
                       (oprop (oprop (get a "links") "mobile") "href"));
              ("categories", categories)]).

(** [(data.articles || []).map(...)] *)
Definition articles_of (data : jsval) : result (list jsval) :=
  articles <- prop data "articles";;
  mapped <- call_map (or_else articles (JArr [])) article;;
  iterate mapped.

(** The comparator of the news sort: newest first. *)
Definition newest_first (a b : jsval) : result num :=
  tb <- time_of (get b "published");;
  ta <- time_of (get a "published");;
  Ok (num_sub tb ta).

(** The [filter] with the [seen] set: an article passes when its id is not
    in the set, and then its id enters the set. *)
Fixpoint dedupe (seen : list jsval) (l : list jsval) : list jsval :=
  match l with
  | [] => []
  | a :: l' =>
      if existsb (same_value_zero (get a "id")) seen then dedupe seen l'
      else a :: dedupe (get a "id" :: seen) l'
  end.

Definition news_output (results : list jsval) (input : news_input)
    : result jsval :=
  let limit := Z.min (n_limit input) 25 in
  perFeed <- mapM articles_of results;;
  let allArticles := List.concat perFeed in
  sorted <- sort newest_first allArticles;;
  let uniqueArticles := slice (dedupe [] sorted) 0 limit in
  Ok (JObj [("output", JObj [
    ("tour", JStr (tour_name (n_tour input)));
    ("count", get_length (JArr uniqueArticles));
    ("articles", JArr uniqueArticles);
    ("fetchedAt", JStr now)])]).

Definition news (input : news_input) : M jsval :=
  and_then
    (promise_all
       (map fetchESPN (selected (n_tour input) atp_news_url wta_news_url)))
    (fun results => news_output results input).

(** *** live-matches *)
Definition match_player (c : jsval) : result jsval :=
  if nullish c then Throw TypeError
  else
    sets <- call_map (or_else (get c "linescores") (JArr []))
                     (fun s => prop s "value");;
    Ok (JObj [("name",
               or_else (oprop (get c "athlete") "displayName")
                       (JStr "Unknown"));
              ("seed", get c "seed");
              ("isWinner", or_else (get c "winner") (JBool false));
              ("sets", sets)]).

(** The body of the innermost loop: the match pushed for competition
    [comp] of [event]. *)
Definition match_of (tour : string) (event comp : jsval) : result jsval :=
  if nullish comp then Throw TypeError
  else
    let type := oprop (get comp "status") "type" in
    let status := or_else (oprop type "description") (JStr "Unknown") in
    let competitors := or_else (get comp "competitors") (JArr []) in
    players <- call_map competitors match_player;;
    Ok (JObj [("tour", JStr tour);
              ("tournament", or_else (get event "name") (JStr "Tournament"));
              ("round",
               or_else (oprop (get comp "round") "displayName") (JStr ""));
              ("status", status);
              ("isLive", JBool (strict_eq_str (oprop type "state") "in"));
              ("isComplete", or_else (oprop type "completed") (JBool false));
              ("players", players);
              ("startTime", get comp "startDate");
              ("venue",
               or_else (or_else (oprop (get event "venue") "fullName")
                                (oprop (get comp "venue") "fullName"))
                       (JStr ""))]).

Definition event_matches (tour : string) (event : jsval)
    : result (list jsval) :=
  competitions <- prop event "competitions";;
  comps <- iterate (or_else competitions (JArr []));;
  mapM (match_of tour event) comps.

Definition tour_matches (fetched : string * jsval) : result (list jsval) :=
  let (tour, data) := fetched in
  events <- prop data "events";;
  evs <- iterate (or_else events (JArr []));;
  perEvent <- mapM (event_matches tour) evs;;
  Ok (List.concat perEvent).

Definition isLive (m : jsval) : bool := ToBoolean (get m "isLive").

(** The comparator of the matches sort: live first, then by start time. *)
Definition live_first (a b : jsval) : result num :=
  if isLive a && negb (isLive b) then Ok (Num (-1))
  else if negb (isLive a) && isLive b then Ok (Num 1)
  else
    ta <- time_of (get a "startTime");;
    tb <- time_of (get b "startTime");;
    Ok (num_sub ta tb).

Definition matches_output (results : list (string * jsval))
    (input : matches_input) : result jsval :=
  perTour <- mapM tour_matches results;;
  matches <- sort live_first (List.concat perTour);;
  Ok (JObj [("output", JObj [
    ("tour", JStr (tour_name (m_tour input)));
    ("totalMatches", get_length (JArr matches));
    ("liveCount", get_length (JArr (filter isLive matches)));
    ("matches", JArr matches);
    ("fetchedAt", JStr now)])]).

(** [async ({ tour, url }) => ({ tour, data: await fetchESPN(url) })] *)
Definition fetch_tour (tu : string * string) : M (string * jsval) :=
  and_then (fetchESPN (snd tu)) (fun data => Ok (fst tu, data)).

Definition live_matches (input : matches_input) : M jsval :=
  and_then
    (promise_all
       (map fetch_tour
            (selected (m_tour input) ("ATP", atp_scoreboard_url)
                                     ("WTA", wta_scoreboard_url))))
    (fun results => matches_output results input).

(** *** player-search *)

(** [v?.toLowerCase() || ''] *)
Definition lowered (v : jsval) : result string :=
  match v with
  | JUndefined | JNull => Ok ""
  | JStr s => Ok (toLowerCase s)
  | _ => Throw TypeError
  end.

Definition search_hit (tour : string) (r : jsval) : result jsval :=
  movement <- js_sub (get r "previous") (get r "current");;
  Ok (JObj [("tour", JStr tour);
            ("rank", get r "current");
            ("previousRank", get r "previous");
            ("movement", JNum movement);
            ("name", oprop (get r "athlete") "displayName");
            ("firstName", oprop (get r "athlete") "firstName");
            ("lastName", oprop (get r "athlete") "lastName");
            ("id", oprop (get r "athlete") "id");
            ("points", get r "points");
            ("trend", get r "trend");
            ("profileUrl",
             oprop (oget0 (oprop (get r "athlete") "links")) "href")]).

(** The body of the inner loop: what ranking entry [r] pushes. *)
Definition search_entry (query tour : string) (r : jsval)
    : result (list jsval) :=
  if nullish r then Throw TypeError
  else
    name <- lowered (oprop (get r "athlete") "displayName");;
    firstName <- lowered (oprop (get r "athlete") "firstName");;
    lastName <- lowered (oprop (get r "athlete") "lastName");;
    if includes name query || includes firstName query
       || includes lastName query
    then hit <- search_hit tour r;; Ok [hit]
    else Ok [].

Definition search_tour (query : string) (fetched : string * jsval)
    : result (list jsval) :=
  let (tour, data) := fetched in
  found <- ranks_of data;;
  ranks <- iterate (or_else found (JArr []));;
  pushed <- mapM (search_entry query tour) ranks;;
  Ok (List.concat pushed).

(** The comparator of the players sort: ascending rank. *)
Definition by_rank (a b : jsval) : result num :=
  js_sub (get a "rank") (get b "rank").

Definition search_output (results : list (string * jsval))
    (input : search_input) : result jsval :=
  let query := toLowerCase (s_query input) in
  perTour <- mapM (search_tour query) results;;
  let players := List.concat perTour in
  sorted <- sort by_rank players;;
  Ok (JObj [("output", JObj [
    ("query", JStr (s_query input));
    ("tour", JStr (tour_name (s_tour input)));
    ("found", get_length (JArr players));
    ("players", JArr sorted);
    ("fetchedAt", JStr now)])]).

Definition player_search (input : search_input) : M jsval :=
  and_then
    (promise_all
       (map fetch_tour
            (selected (s_tour input) ("ATP", atp_rankings_url)
                                     ("WTA", wta_rankings_url))))
    (fun results => search_output results input).


(** *** What the claims speak of *)

(** The upstream ranking list that [ranks_of] finds in [data]: [rs] is empty
    when the optional chain ends in null or undefined. *)
Definition ranks_read (data : jsval) (rs : list jsval) : Prop :=
  exists ranks, ranks_of data = Ok ranks /\
    (nullish ranks = true /\ rs = [] \/ ranks = JArr rs).

(** [e.movement] is [e.previousRank - e.rank]. *)
Definition movement_ok (e : jsval) : Prop :=
  exists m, get e "movement" = JNum m /\
            js_sub (get e "previousRank") (get e "rank") = Ok m.

(** [e] is the entry made from the upstream entry [r]. *)
Definition mapped_from (r e : jsval) : Prop :=
  get e "rank" = get r "current" /\ get e "previousRank" = get r "previous".

(** The response [out] of a rankings handler that fetched [url] lists, under
    [rankings], the entries made from the first [limit] upstream entries. *)
Definition rankings_response (url : string) (limit : Z) (out : jsval)
    (entries : list jsval) : Prop :=
  exists data rs,
    outcome (fetchESPN url) = Ok data /\ ranks_read data rs /\
    get (get out "output") "rankings" = JArr entries /\
    Forall2 (fun r e => ranking_entry r = Ok e) (slice rs 0 limit) entries.

(** The two lists of the overview: at most five entries, each with the keys
    [rank], [name] and [points] and no other. *)
Definition top5_shape (players : jsval) : Prop :=
  exists entries,
    players = JArr entries /\
    (List.length entries <= 5)%nat /\
    Forall (fun e => keys e = ["rank"; "name"; "points"]) entries.

(** A list whose entries that satisfy [p] all come before those that do
    not. *)
Definition partitioned {A} (p : A -> bool) (l : list A) : Prop :=
  exists front back,
    l = front ++ back /\
    Forall (fun x => p x = true) front /\
    Forall (fun x => p x = false) back.

(** [m.isLive] is the boolean [b]. *)
Definition isLive_is (b : bool) (m : jsval) : Prop := get m "isLive" = JBool b.

(** The list [for (const r of data.rankings?.[0]?.ranks || [])] runs
    through. *)
Definition ranks_listed (data : jsval) (rs : list jsval) : Prop :=
  exists found, ranks_of data = Ok found /\
                iterate (or_else found (JArr [])) = Ok rs.

(** The tours a search fetches, with their labels. *)
Definition searched (input : search_input) : list (string * string) :=
  selected (s_tour input) ("ATP", atp_rankings_url) ("WTA", wta_rankings_url).

(** [res] is what [fetch_tour] resolves to for [tu]. *)
Definition fetched_tour (tu : string * string) (res : string * jsval) : Prop :=
  fst res = fst tu /\ outcome (fetchESPN (snd tu)) = Ok (snd res).

(** [hit] was pushed for an entry [r] of the upstream list of a tour that the
    search fetched. *)
Definition hit_from_upstream (input : search_input) (hit : jsval) : Prop :=
  exists tu data rs r,
    In tu (searched input) /\ outcome (fetchESPN (snd tu)) = Ok data /\
    ranks_listed data rs /\ In r rs /\
    search_entry (toLowerCase (s_query input)) (fst tu) r = Ok [hit] /\
    search_hit (fst tu) r = Ok hit.

(** [e] is the entry made from the upstream entry [r]: its [rank] and
    [previousRank] are [r.current] and [r.previous], and its [movement] is
    [r.previous - r.current]. *)
Definition movement_from (r e : jsval) : Prop :=
  mapped_from r e /\
  exists m, js_sub (get r "previous") (get r "current") = Ok m /\
            get e "movement" = JNum m.

(** The response [out] of a rankings handler that fetched [url]: the entries
    under [rankings] are made, one for one and in order, from the upstream
    entries that [slice(0, min(limit, 100))] keeps. *)
Definition ranked_from (url : string) (input : rankings_input) (out : jsval)
    : Prop :=
  exists data rs entries,
    outcome (fetchESPN url) = Ok data /\ ranks_read data rs /\
    get (get out "output") "rankings" = JArr entries /\
    Forall movement_ok entries /\
    Forall2 movement_from (slice rs 0 (Z.min (r_limit input) 100)) entries.

(** [e] is a player of a search: made from an entry of the upstream list of
    a tour that the search fetched. *)
Definition found_from (input : search_input) (e : jsval) : Prop :=
  movement_ok e /\
  exists tu data rs r,
    In tu (searched input) /\ outcome (fetchESPN (snd tu)) = Ok data /\
    ranks_listed data rs /\ In r rs /\ movement_from r e.

(** [q] occurs in [s]. *)
Definition contains (s q : string) : Prop :=
  exists pre post, s = String.append pre (String.append q post).

(** The name [v] of a returned player contains the query [q] without regard
    to case.  A name that is absent (undefined or null) is searched as the
    empty string, which the empty query alone occurs in. *)
Definition contains_ci (v : jsval) (q : string) : Prop :=
  match v with
  | JStr s => contains (toLowerCase s) (toLowerCase q)
  | _ => toLowerCase q = ""
  end.

(** The player [e] has a [name], [firstName] or [lastName], and that string
    contains the query [q] without regard to case. *)
Definition has_matching_name (q : string) (e : jsval) : Prop :=
  exists field s,
    In field ["name"; "firstName"; "lastName"] /\ get e field = JStr s /\
    contains (toLowerCase s) (toLowerCase q).

Definition matches_query (q : string) (e : jsval) : Prop :=
  contains_ci (get e "name") q \/ contains_ci (get e "firstName") q \/
  contains_ci (get e "lastName") q.

(** The rank of a returned player, when it is a number. *)
Definition rank_of (e : jsval) : Z :=
  match get e "rank" with
  | JNum (Num z) => z
  | _ => 0
  end.

Definition has_rank (e : jsval) : Prop := get e "rank" = JNum (Num (rank_of e)).

Definition ascending (players : list jsval) : Prop :=
  StronglySorted (fun a b => rank_of a <= rank_of b) players.

(** Every entry of the upstream lists of the tours searched has a number
    for [current]. *)
Definition upstream_ranks_numeric (input : search_input) : Prop :=
  forall tu data rs,
    In tu (searched input) -> outcome (fetchESPN (snd tu)) = Ok data ->
    ranks_listed data rs ->
    Forall (fun r => exists z, get r "current" = JNum (Num z)) rs.

(** Every tour searched answers, with an empty ranking list. *)
Definition upstream_ranks_empty (input : search_input) : Prop :=
  forall tu, In tu (searched input) ->
    exists data, outcome (fetchESPN (snd tu)) = Ok data /\
                 ranks_listed data [].

(** [hits] holds one hit for each entry of the upstream list of [res], in
    the order of that list. *)
Definition tour_hits (res : string * jsval) (hits : list jsval) : Prop :=
  exists rs, ranks_listed (snd res) rs /\
             Forall2 (fun r hit => search_hit (fst res) r = Ok hit) rs hits.


(** The articles of the feeds that a news request fetched, mapped and
    flattened. *)
Definition news_fetched (input : news_input) (fetched : list jsval) : Prop :=
  exists results perFeed,
    Forall2 (fun url data => outcome (fetchESPN url) = Ok data)
            (selected (n_tour input) atp_news_url wta_news_url) results /\
    Forall2 (fun data arts => articles_of data = Ok arts) results perFeed /\
    fetched = List.concat perFeed.

(** The publication time of an article whose [published] is a date. *)
Definition published_at (a : jsval) : Z :=
  match time_of (get a "published") with
  | Ok (Num t) => t
  | _ => 0
  end.

Definition dated (a : jsval) : Prop :=
  time_of (get a "published") = Ok (Num (published_at a)).

(** *** What the further properties speak of *)

(** The endpoints a handler asks, for the tours selected. *)
Definition news_urls (input : news_input) : list string :=
  selected (n_tour input) atp_news_url wta_news_url.

Definition scoreboard_urls (input : matches_input) : list string :=
  map snd (selected (m_tour input) ("ATP", atp_scoreboard_url)
                                   ("WTA", wta_scoreboard_url)).

Definition search_urls (input : search_input) : list string :=
  map snd (searched input).

(** A handler that asks [urls] has asked all of them, in this order, however
    it settles, and when one of them fails it settles with the failure of
    one of them. *)
Definition fails_with_upstream (urls : list string) (run : M jsval) : Prop :=
  requests run = urls /\
  ((exists url e, In url urls /\ outcome (fetchESPN url) = Throw e) ->
   exists url e, In url urls /\ outcome (fetchESPN url) = Throw e /\
                 outcome run = Throw e).

(** The competitions of all events of a scoreboard document, in the order the
    two loops of live-matches visit them. *)
Definition competitions_of (data : jsval) : result (list jsval) :=
  events <- prop data "events";;
  evs <- iterate (or_else events (JArr []));;
  perEvent <- mapM (fun event =>
                      competitions <- prop event "competitions";;
                      iterate (or_else competitions (JArr []))) evs;;
  Ok (List.concat perEvent).

(** The start of a match whose [startTime] is a date. *)
Definition started_at (m : jsval) : Z :=
  match time_of (get m "startTime") with
  | Ok (Num t) => t
  | _ => 0
  end.

Definition start_dated (m : jsval) : Prop :=
  time_of (get m "startTime") = Ok (Num (started_at m)).

(** [a] may stand before [b]: a live match before one that is not live, and
    of two that are both live or both not, the one that starts first. *)
Definition live_order (a b : jsval) : Prop :=
  (isLive a = true /\ isLive b = false) \/
  (isLive a = isLive b /\ started_at a <= started_at b).

(** The number of a length field. *)
Definition count_of (v : jsval) : Z :=
  match v with
  | JNum (Num z) => z
  | _ => 0
  end.


(** A rankings document that the rankings handlers cannot read up to
    [limit]: the document is null, or what stands at
    [rankings?.[0]?.ranks] is neither absent nor an array, or one of the
    entries that [slice(0, limit)] keeps is null. *)
Definition unreadable_rankings (data : jsval) (limit : Z) : Prop :=
  nullish data = true \/
  (exists ranks, ranks_of data = Ok ranks /\ nullish ranks = false /\
                 forall rs, ranks <> JArr rs) \/
  (exists rs r, ranks_of data = Ok (JArr rs) /\
                In r (slice rs 0 limit) /\ nullish r = true).

(** The response of a rankings handler that found no ranks. *)
Definition no_rankings (label : string) : jsval :=
  JObj [("output", JObj [("tour", JStr label);
                         ("totalRanked", JNum (Num 0));
                         ("rankings", JArr []);
                         ("fetchedAt", JStr now)])].


(** A returned article: the nine keys of the mapping, and under
    [categories] either undefined or a list without a falsy value. *)
Definition article_shape (a : jsval) : Prop :=
  keys a = ["id"; "headline"; "description"; "published"; "lastModified";
            "type"; "imageUrl"; "link"; "categories"] /\
  (get a "categories" = JUndefined \/
   exists l, get a "categories" = JArr l /\
             Forall (fun c => ToBoolean c = true) l).

(** [a] is not published before [b]. *)
Definition newest_order (a b : jsval) : Prop :=
  published_at b <= published_at a.


(** The response [out] of a rankings handler that fetched [url], asked for
    an integer [limit]: the ranks returned are the [current] values of the
    upstream entries that [slice(0, min(limit, 100))] keeps, and their number
    is [min(limit, 100, length)] for a limit that is not negative and
    [max(length + limit, 0)] for a negative one. *)
Definition follows_upstream (url : string) (input : rankings_input)
    (out : jsval) : Prop :=
  exists data rs entries,
    outcome (fetchESPN url) = Ok data /\ ranks_read data rs /\
    get (get out "output") "rankings" = JArr entries /\
    map (fun e => get e "rank") entries
    = map (fun r => get r "current")
          (slice rs 0 (Z.min (r_limit input) 100)) /\
    Z.of_nat (List.length entries)
    = if r_limit input <? 0
      then Z.max (Z.of_nat (List.length rs) + r_limit input) 0
      else Z.min (Z.min (r_limit input) 100) (Z.of_nat (List.length rs)).


(** The scoreboards live-matches fetches, with their labels. *)
Definition scoreboards (input : matches_input) : list (string * string) :=
  selected (m_tour input) ("ATP", atp_scoreboard_url)
                          ("WTA", wta_scoreboard_url).

(** A value that is there (not undefined, not null), and one that counts as
    true. *)
Definition present (v : jsval) : Prop := nullish v = false.
Definition truthy (v : jsval) : Prop := ToBoolean v = true.

(** A player of a returned match. *)
Definition competitor_shape (p : jsval) : Prop :=
  keys p = ["name"; "seed"; "isWinner"; "sets"] /\
  truthy (get p "name") /\ present (get p "isWinner") /\
  exists sets, get p "sets" = JArr sets.

(** A returned match: its nine keys; a status and a tournament that count as
    true; a round, a venue and a completion flag that are there; a boolean
    [isLive]; a list of players. *)
Definition match_shape (m : jsval) : Prop :=
  keys m = ["tour"; "tournament"; "round"; "status"; "isLive"; "isComplete";
            "players"; "startTime"; "venue"] /\
  truthy (get m "status") /\ truthy (get m "tournament") /\
  present (get m "round") /\ present (get m "venue") /\
  present (get m "isComplete") /\
  (exists b, isLive_is b m) /\
  exists players, get m "players" = JArr players /\
                  Forall competitor_shape players.

(** The label under [tour] is that of one of the pairs [tours]. *)
Definition labelled_by (tours : list (string * string)) (e : jsval) : Prop :=
  exists tu, In tu tours /\ get e "tour" = JStr (fst tu).


(** The upstream entry [r] has a name (display, first or last) that contains
    the query [q] without regard to case. *)
Definition entry_matches (q : string) (r : jsval) : Prop :=
  exists field s,
    In field ["displayName"; "firstName"; "lastName"] /\
    oprop (get r "athlete") field = JStr s /\
    contains (toLowerCase s) (toLowerCase q).

(** A returned player: the eleven keys of the mapping. *)
Definition hit_shape (e : jsval) : Prop :=
  keys e = ["tour"; "rank"; "previousRank"; "movement"; "name"; "firstName";
            "lastName"; "id"; "points"; "trend"; "profileUrl"].

(** The players of rank [k], in the order of the list. *)
Definition ranked_at (k : Z) (players : list jsval) : list jsval :=
  filter (fun e => rank_of e =? k) players.


(** *** analytics, analytics-transactions, analytics-csv

    The payment tracker and the three functions of the analytics package
    are the collaborator's; the handlers are embedded over them.  A bigint
    total of the summary is a [Num]: it prints in decimal. *)

(** [agent.analytics?.paymentTracker] *)
Variable paymentTracker : jsval.

(** [await getSummary(tracker, windowMs)] and its two siblings. *)
Variable getSummary : jsval -> jsval -> result jsval.
Variable getAllTransactions : jsval -> jsval -> result jsval.
Variable exportToCSV : jsval -> jsval -> result jsval.

(** [z.number().optional()] *)
Definition z_number_optional (v : jsval) : result jsval :=
  match v with
  | JUndefined => Ok JUndefined
  | JNum (Num z) => Ok (JNum (Num z))
  | _ => Throw ValidationError
  end.

Record window_input := { w_windowMs : jsval }.
Record transactions_input := { t_windowMs : jsval; t_limit : Z }.

Definition window_schema (raw : jsval) : result window_input :=
  z_object raw (fun o =>
    windowMs <- z_number_optional (get o "windowMs");;
    Ok {| w_windowMs := windowMs |}).

Definition transactions_schema (raw : jsval) : result transactions_input :=
  z_object raw (fun o =>
    windowMs <- z_number_optional (get o "windowMs");;
    limit <- z_number_default 50 (get o "limit");;
    Ok {| t_windowMs := windowMs; t_limit := limit |}).

(** [v.toString()] *)
Definition call_toString (v : jsval) : result jsval :=
  if nullish v then Throw TypeError
  else s <- ToString v;; Ok (JStr s).

Fixpoint indexed (i : nat) (l : list jsval) : list (string * jsval) :=
  match l with
  | [] => []
  | x :: l' => (string_of_Z (Z.of_nat i), x) :: indexed (S i) l'
  end.

(** The properties [{ ...v }] copies: those of an object, the elements of an
    array and the characters of a string under their indices, nothing of
    another value. *)
Definition spread (v : jsval) : list (string * jsval) :=
  match v with
  | JObj fs => fs
  | JArr l => indexed 0 l
  | JStr s => indexed 0 (chars s)
  | _ => []
  end.

(** [k: v] in an object literal after a spread: the value of a key that is
    there already is replaced, a new key comes last. *)
Fixpoint set_key (k : string) (v : jsval) (fs : list (string * jsval))
    : list (string * jsval) :=
  match fs with
  | [] => [(k, v)]
  | (k', v') :: fs' =>
      if String.eqb k k' then (k', v) :: fs' else (k', v') :: set_key k v fs'
  end.

Definition analytics (input : window_input) : result jsval :=
  let tracker := paymentTracker in
  if negb (ToBoolean tracker)
  then Ok (JObj [("output", JObj [("error", JStr "Analytics not available");
                                  ("payments", JArr [])])])
  else
    summary <- getSummary tracker (w_windowMs input);;
    outgoing <- bind (prop summary "outgoingTotal") call_toString;;
    incoming <- bind (prop summary "incomingTotal") call_toString;;
    net_total <- bind (prop summary "netTotal") call_toString;;
    Ok (JObj [("output",
               JObj (set_key "netTotal" net_total
                      (set_key "incomingTotal" incoming
                         (set_key "outgoingTotal" outgoing
                            (spread summary)))))]).

Definition analytics_transactions (input : transactions_input)
    : result jsval :=
  let tracker := paymentTracker in
  if negb (ToBoolean tracker)
  then Ok (JObj [("output", JObj [("transactions", JArr [])])])
  else
    txs <- getAllTransactions tracker (t_windowMs input);;
    listed <- (if nullish txs then Throw TypeError
               else call_slice txs 0 (t_limit input));;
    Ok (JObj [("output", JObj [("transactions", listed)])]).

Definition analytics_csv (input : window_input) : result jsval :=
  let tracker := paymentTracker in
  if negb (ToBoolean tracker)
  then Ok (JObj [("output", JObj [("csv", JStr "")])])
  else
    csv <- exportToCSV tracker (w_windowMs input);;
    Ok (JObj [("output", JObj [("csv", csv)])]).

(** *** The registration file

    [domain] is [process.env.RAILWAY_PUBLIC_DOMAIN], [None] when it is not
    set. *)
Definition baseUrl (domain : option string) : string :=
  match domain with
  | Some d =>
      if String.eqb d "" then "https://tennis-intel-production.up.railway.app"
      else String.append "https://" d
  | None => "https://tennis-intel-production.up.railway.app"
  end.

Definition erc8004 (domain : option string) : jsval :=
  let base := baseUrl domain in
  JObj [("type",
         JStr "https://eips.ethereum.org/EIPS/eip-8004#registration-v1");
        ("name", JStr "tennis-intel");
        ("description",
         JStr "Professional tennis intelligence - ATP/WTA rankings, live scores, news, and player data. 1 FREE + 5 PAID endpoints via x402.");
        ("image", JStr (String.append base "/icon.png"));
        ("services",
         JArr [JObj [("name", JStr "web"); ("endpoint", JStr base)];
               JObj [("name", JStr "A2A");
                     ("endpoint",
                      JStr (String.append base "/.well-known/agent.json"));
                     ("version", JStr "0.3.0")]]);
        ("x402Support", JBool true);
        ("active", JBool true);
        ("registrations", JArr []);
        ("supportedTrust", JArr [JStr "reputation"])].

(** The three totals that [analytics] turns into strings. *)
Definition totals : list string :=
  ["outgoingTotal"; "incomingTotal"; "netTotal"].

(** The answers of the analytics handlers when there is no tracker. *)
Definition no_analytics : jsval :=
  JObj [("output", JObj [("error", JStr "Analytics not available");
                         ("payments", JArr [])])].
Definition no_transactions : jsval :=
  JObj [("output", JObj [("transactions", JArr [])])].
Definition no_csv : jsval := JObj [("output", JObj [("csv", JStr "")])].

(** The tour a news input selects and the limit it asks for: the defaults
    for what is absent, nothing for what the schema refuses. *)
Definition tour_asked (v : jsval) : option tour_sel :=
  match v with
  | JUndefined => Some both
  | JStr "atp" => Some atp
  | JStr "wta" => Some wta
  | JStr "both" => Some both
  | _ => None
  end.

Definition limit_asked (v : jsval) : option Z :=
  match v with
  | JUndefined => Some 10
  | JNum (Num z) => Some z
  | _ => None
  end.


(** ** Generic facts about the embedding *)

Lemma bind_Ok {A B} (m : result A) (f : A -> result B) (b : B) :
  bind m f = Ok b -> exists a, m = Ok a /\ f a = Ok b.
Proof.
  destruct m as [a|e]; simpl; intros H; [eauto | discriminate].
Qed.

(** Splits a hypothesis [x <- m ;; k = Ok b] into its two steps. *)
Ltac inv_bind H :=
  let a := fresh "a" in
  let Ha := fresh "Ha" in
  apply bind_Ok in H; destruct H as (a & Ha & H).

Lemma mapM_Ok {A B} (f : A -> result B) (l : list A) (l' : list B) :
  mapM f l = Ok l' -> Forall2 (fun x y => f x = Ok y) l l'.
Proof.
  revert l'; induction l as [|x l IH]; simpl; intros l' H.
  - injection H as <-. constructor.
  - inv_bind H. inv_bind H. injection H as <-.
    constructor; auto.
Qed.

Lemma mapM_Forall2 {A B} (f : A -> result B) (l : list A) (l' : list B) :
  Forall2 (fun x y => f x = Ok y) l l' -> mapM f l = Ok l'.
Proof.
  induction 1 as [|x y l l' Hxy _ IH]; simpl; [reflexivity|].
  rewrite Hxy; simpl. rewrite IH; reflexivity.
Qed.

Lemma Forall2_Forall_r {A B} (R : A -> B -> Prop) (P : B -> Prop) l l' :
  Forall2 R l l' -> (forall x y, R x y -> P y) -> Forall P l'.
Proof.
  induction 1; intros HP; constructor; eauto.
Qed.

Lemma clamp_index_0 (len : Z) : 0 <= len -> clamp_index len 0 = 0.
Proof.
  intros H. unfold clamp_index. simpl. lia.
Qed.

(** [l.slice(0, n)] is a prefix of [l]. *)
Lemma slice_0 {A} (l : list A) (n : Z) :
  slice l 0 n = firstn (Z.to_nat (clamp_index (Z.of_nat (List.length l)) n)) l.
Proof.
  unfold slice. rewrite clamp_index_0 by lia. simpl.
  now rewrite Z.sub_0_r.
Qed.

Lemma slice_0_length_le {A} (l : list A) (n : Z) :
  0 <= n -> Z.of_nat (List.length (slice l 0 n)) <= n.
Proof.
  intros Hn. rewrite slice_0, length_firstn.
  unfold clamp_index. destruct (n <? 0) eqn:E; lia.
Qed.

Lemma slice_0_length_negative {A} (l : list A) (n : Z) :
  n < 0 ->
  Z.of_nat (List.length (slice l 0 n)) = Z.max (Z.of_nat (List.length l) + n) 0.
Proof.
  intros Hn. rewrite slice_0, length_firstn.
  unfold clamp_index. destruct (n <? 0) eqn:E; lia.
Qed.

Lemma slice_0_prefix {A} (l : list A) (n : Z) :
  exists rest, l = slice l 0 n ++ rest.
Proof.
  rewrite slice_0. eexists. symmetry. apply firstn_skipn.
Qed.

Lemma and_then_Ok {A B} (p : M A) (k : A -> result B) (b : B) :
  outcome (and_then p k) = Ok b ->
  exists a, outcome p = Ok a /\ k a = Ok b.
Proof.
  unfold and_then, outcome. simpl. apply bind_Ok.
Qed.

(** *** Sorting *)

Section SortFacts.
Context {A : Type} (cmp : A -> A -> result num).

Lemma insert_Permutation x l l' :
  insert cmp x l = Ok l' -> Permutation (x :: l) l'.
Proof.
  revert l'; induction l as [|y l IH]; simpl; intros l' H.
  - injection H as <-. reflexivity.
  - inv_bind H. destruct (positive a).
    + inv_bind H. injection H as <-.
      rewrite perm_swap. constructor. now apply IH.
    + injection H as <-. reflexivity.
Qed.

Lemma sort_Permutation l l' : sort cmp l = Ok l' -> Permutation l l'.
Proof.
  revert l'; induction l as [|x l IH]; simpl; intros l' H.
  - injection H as <-. reflexivity.
  - inv_bind H. apply insert_Permutation in H.
    rewrite <- H. constructor. now apply IH.
Qed.

Lemma sort_Forall (P : A -> Prop) l l' :
  sort cmp l = Ok l' -> Forall P l -> Forall P l'.
Proof.
  intros H HP. apply sort_Permutation in H.
  rewrite Forall_forall in *. intros x Hx. apply HP.
  eapply Permutation_in; [symmetry; exact H | exact Hx].
Qed.

Lemma sort_length l l' : sort cmp l = Ok l' -> List.length l' = List.length l.
Proof.
  intros H. symmetry. apply Permutation_length. now apply sort_Permutation.
Qed.

End SortFacts.

(** *** Rankings *)

Lemma ranks_slice_map_Ok data limit entry v :
  ranks_slice_map data limit entry = Ok v ->
  exists rs out, v = JArr out /\ ranks_read data rs /\
    Forall2 (fun r e => entry r = Ok e) (slice rs 0 limit) out.
Proof.
  unfold ranks_slice_map. intros H.
  inv_bind H. inv_bind H. injection H as <-.
  destruct (nullish a) eqn:En.
  - injection Ha0 as <-. exists [], []. repeat split.
    + exists a; auto.
    + rewrite slice_0. simpl. rewrite firstn_nil. constructor.
  - inv_bind Ha0. destruct a as [| | | | s | rs | fs]; try discriminate.
    + injection Ha1 as <-. discriminate.
    + injection Ha1 as <-. simpl in Ha0. inv_bind Ha0.
      injection Ha0 as <-. exists rs, a. repeat split.
      * exists (JArr rs); auto.
      * now apply mapM_Ok.
Qed.

Lemma ranking_entry_Ok r e :
  ranking_entry r = Ok e -> movement_ok e /\ mapped_from r e.
Proof.
  unfold ranking_entry. destruct (nullish r); [discriminate|].
  intros H. inv_bind H. injection H as <-.
  split; [exists a; split; [reflexivity | exact Ha] | split; reflexivity].
Qed.

Lemma search_hit_Ok tour r e :
  search_hit tour r = Ok e -> movement_ok e /\ mapped_from r e.
Proof.
  unfold search_hit. intros H. inv_bind H. injection H as <-.
  split; [exists a; split; [reflexivity | exact Ha] | split; reflexivity].
Qed.

Lemma ranking_entry_from r e : ranking_entry r = Ok e -> movement_from r e.
Proof.
  unfold ranking_entry. destruct (nullish r); [discriminate|].
  intros H. inv_bind H. injection H as <-.
  split; [split; reflexivity|]. exists a. split; [exact Ha | reflexivity].
Qed.

Lemma search_hit_from tour r e : search_hit tour r = Ok e -> movement_from r e.
Proof.
  unfold search_hit. intros H. inv_bind H. injection H as <-.
  split; [split; reflexivity|]. exists a. split; [exact Ha | reflexivity].
Qed.

Lemma rankings_output_Ok label data input out :
  rankings_output label data input = Ok out ->
  exists rs entries,
    ranks_read data rs /\
    get (get out "output") "rankings" = JArr entries /\
    get (get out "output") "totalRanked"
      = JNum (Num (Z.of_nat (List.length entries))) /\
    Forall2 (fun r e => ranking_entry r = Ok e)
            (slice rs 0 (Z.min (r_limit input) 100)) entries.
Proof.
  unfold rankings_output. intros H. inv_bind H. injection H as <-.
  apply ranks_slice_map_Ok in Ha as (rs & entries & -> & Hrs & HF).
  exists rs, entries. repeat split; auto.
Qed.

Lemma atp_rankings_Ok input out :
  outcome (atp_rankings input) = Ok out ->
  exists entries,
    rankings_response atp_rankings_url (Z.min (r_limit input) 100) out entries /\
    get (get out "output") "totalRanked"
      = JNum (Num (Z.of_nat (List.length entries))).
Proof.
  intros H. apply and_then_Ok in H as (data & Hd & H).
  apply rankings_output_Ok in H as (rs & entries & Hrs & Hr & Ht & HF).
  exists entries. split; [exists data, rs|]; auto.
Qed.

Lemma wta_rankings_Ok input out :
  outcome (wta_rankings input) = Ok out ->
  exists entries,
    rankings_response wta_rankings_url (Z.min (r_limit input) 100) out entries /\
    get (get out "output") "totalRanked"
      = JNum (Num (Z.of_nat (List.length entries))).
Proof.
  intros H. apply and_then_Ok in H as (data & Hd & H).
  apply rankings_output_Ok in H as (rs & entries & Hrs & Hr & Ht & HF).
  exists entries. split; [exists data, rs|]; auto.
Qed.

Lemma rankings_response_movement url limit out entries :
  rankings_response url limit out entries -> Forall movement_ok entries.
Proof.
  intros (data & rs & _ & _ & _ & HF).
  eapply Forall2_Forall_r; [exact HF|].
  intros r e H. now apply ranking_entry_Ok in H.
Qed.

Lemma rankings_response_from url input out entries :
  rankings_response url (Z.min (r_limit input) 100) out entries ->
  ranked_from url input out.
Proof.
  intros Hr. pose proof (rankings_response_movement _ _ _ _ Hr) as Hm.
  destruct Hr as (data & rs & Hd & Hrs & Hr & HF).
  exists data, rs, entries.
  split; [exact Hd|]. split; [exact Hrs|]. split; [exact Hr|].
  split; [exact Hm|].
  eapply Forall2_impl; [|exact HF]. intros r e. apply ranking_entry_from.
Qed.

Lemma rankings_response_length url limit out entries :
  0 <= limit ->
  rankings_response url limit out entries ->
  Z.of_nat (List.length entries) <= limit.
Proof.
  intros Hl (data & rs & _ & _ & _ & HF).
  apply Forall2_length in HF. rewrite <- HF.
  now apply slice_0_length_le.
Qed.

(** For a limit that is not negative the rankings handlers return at most
    [min(limit, 100)] entries. *)
Lemma rankings_length_capped input out :
  0 <= r_limit input ->
  outcome (atp_rankings input) = Ok out \/ outcome (wta_rankings input) = Ok out ->
  exists entries,
    get (get out "output") "rankings" = JArr entries /\
    Z.of_nat (List.length entries) <= Z.min (r_limit input) 100.
Proof.
  intros Hl [H|H];
    [apply atp_rankings_Ok in H | apply wta_rankings_Ok in H];
    destruct H as (entries & Hr & _); exists entries; split;
    try (eapply rankings_response_length; [lia | exact Hr]);
    destruct Hr as (? & ? & _ & _ & Hr & _); exact Hr.
Qed.

(** A negative limit [-k] drops the last [k] upstream entries and keeps the
    rest, however many they are. *)
Lemma rankings_length_negative input out :
  r_limit input < 0 ->
  outcome (atp_rankings input) = Ok out ->
  exists data rs entries,
    outcome (fetchESPN atp_rankings_url) = Ok data /\ ranks_read data rs /\
    get (get out "output") "rankings" = JArr entries /\
    Z.of_nat (List.length entries)
      = Z.max (Z.of_nat (List.length rs) + r_limit input) 0.
Proof.
  intros Hl H. apply atp_rankings_Ok in H as (entries & Hr & _).
  destruct Hr as (data & rs & Hd & Hrs & Hr & HF).
  exists data, rs, entries. repeat split; auto.
  apply Forall2_length in HF. rewrite <- HF.
  replace (Z.min (r_limit input) 100) with (r_limit input) by lia.
  now apply slice_0_length_negative.
Qed.

(** *** Player search *)

Lemma mapM_map {A B C} (g : A -> B) (f : B -> result C) (l : list A) :
  mapM f (map g l) = mapM (fun x => f (g x)) l.
Proof.
  induction l as [|x l IH]; simpl; [reflexivity | now rewrite IH].
Qed.

Lemma fetch_tour_Ok tu res :
  outcome (fetch_tour tu) = Ok res -> fetched_tour tu res.
Proof.
  intros H. apply and_then_Ok in H as (data & Hd & H).
  injection H as <-. split; [reflexivity | exact Hd].
Qed.

Lemma promise_all_fetch_tour tus results :
  outcome (promise_all (map fetch_tour tus)) = Ok results ->
  Forall2 fetched_tour tus results.
Proof.
  unfold promise_all, outcome at 1. simpl. rewrite mapM_map. intros H.
  apply mapM_Ok in H. induction H; constructor; auto using fetch_tour_Ok.
Qed.

Lemma search_entry_Ok query tour r l :
  search_entry query tour r = Ok l ->
  nullish r = false /\
  exists name firstName lastName,
    lowered (oprop (get r "athlete") "displayName") = Ok name /\
    lowered (oprop (get r "athlete") "firstName") = Ok firstName /\
    lowered (oprop (get r "athlete") "lastName") = Ok lastName /\
    if includes name query || includes firstName query
       || includes lastName query
    then exists hit, search_hit tour r = Ok hit /\ l = [hit]
    else l = [].
Proof.
  unfold search_entry. destruct (nullish r); [discriminate|].
  intros H. split; [reflexivity|].
  inv_bind H. inv_bind H. inv_bind H.
  exists a, a0, a1. repeat split; auto.
  destruct (includes a query || includes a0 query || includes a1 query).
  - inv_bind H. injection H as <-. eauto.
  - now injection H as <-.
Qed.

Lemma search_tour_Ok query tour data hits :
  search_tour query (tour, data) = Ok hits ->
  exists rs pushed,
    ranks_listed data rs /\
    Forall2 (fun r l => search_entry query tour r = Ok l) rs pushed /\
    hits = List.concat pushed.
Proof.
  unfold search_tour. intros H. inv_bind H. inv_bind H. inv_bind H.
  injection H as <-. exists a0, a1. repeat split.
  - exists a; auto.
  - now apply mapM_Ok.
Qed.

Lemma player_search_Ok input out :
  outcome (player_search input) = Ok out ->
  exists results perTour sorted,
    Forall2 fetched_tour (searched input) results /\
    Forall2 (fun res hits =>
               search_tour (toLowerCase (s_query input)) res = Ok hits)
            results perTour /\
    sort by_rank (List.concat perTour) = Ok sorted /\
    get (get out "output") "players" = JArr sorted /\
    get (get out "output") "found"
      = JNum (Num (Z.of_nat (List.length (List.concat perTour)))).
Proof.
  intros H. apply and_then_Ok in H as (results & Hres & H).
  apply promise_all_fetch_tour in Hres.
  unfold search_output in H. inv_bind H. inv_bind H. injection H as <-.
  exists results, a, a0. repeat split; auto.
  now apply mapM_Ok.
Qed.

Lemma Forall_concat {A} (P : A -> Prop) (ls : list (list A)) :
  Forall (Forall P) ls -> Forall P (List.concat ls).
Proof.
  induction 1; simpl; [constructor | apply Forall_app; auto].
Qed.

Lemma Forall2_In_r {A B} (R : A -> B -> Prop) l l' y :
  Forall2 R l l' -> In y l' -> exists x, In x l /\ R x y.
Proof.
  induction 1 as [|x y' l l' Hxy _ IH]; simpl; intros Hin; [contradiction|].
  destruct Hin as [<-|Hin]; [exists x; auto|].
  destruct (IH Hin) as (x' & Hx' & HR). exists x'; auto.
Qed.

Lemma In_concat_inv {A} (x : A) (ls : list (list A)) :
  In x (List.concat ls) -> exists l, In l ls /\ In x l.
Proof.
  induction ls as [|l ls IH]; simpl; intros H; [contradiction|].
  apply in_app_or in H as [H|H]; [exists l; auto|].
  destruct (IH H) as (l' & Hl' & Hx). exists l'; auto.
Qed.

(** Every hit a tour pushes was made by [search_hit] from an entry of that
    tour's upstream list that passed the test. *)
Lemma search_tour_hits query tour data hits hit :
  search_tour query (tour, data) = Ok hits -> In hit hits ->
  exists rs r, ranks_listed data rs /\ In r rs /\
               search_entry query tour r = Ok [hit] /\
               search_hit tour r = Ok hit.
Proof.
  intros H Hin. apply search_tour_Ok in H as (rs & pushed & Hrs & HF & ->).
  apply In_concat_inv in Hin as (l & Hl & Hin).
  destruct (Forall2_In_r _ _ _ _ HF Hl) as (r & Hr & Hrl).
  exists rs, r. split; [exact Hrs|]. split; [exact Hr|].
  pose proof Hrl as Hrl'.
  apply search_entry_Ok in Hrl as (_ & n & f & la & _ & _ & _ & Hif).
  destruct (includes n query || includes f query || includes la query).
  - destruct Hif as (h & Hh & ->). destruct Hin as [<-|[]]. auto.
  - subst l. contradiction.
Qed.

Lemma player_search_hits input out :
  outcome (player_search input) = Ok out ->
  exists players,
    get (get out "output") "players" = JArr players /\
    get (get out "output") "found"
      = JNum (Num (Z.of_nat (List.length players))) /\
    (exists pushed, sort by_rank pushed = Ok players) /\
    Forall (hit_from_upstream input) players.
Proof.
  intros H. apply player_search_Ok in H
    as (results & perTour & sorted & Hres & HF & Hs & Hp & Hf).
  exists sorted. split; [exact Hp|]. split.
  { rewrite Hf. now rewrite (sort_length _ _ _ Hs). }
  split; [eauto|].
  eapply sort_Forall; [exact Hs|]. rewrite Forall_forall. intros hit Hin.
  apply In_concat_inv in Hin as (hits & Hhits & Hin).
  destruct (Forall2_In_r _ _ _ _ HF Hhits) as ([tour data] & Hr & Hst).
  destruct (Forall2_In_r _ _ _ _ Hres Hr) as (tu & Htu & Htour & Hdata).
  simpl in Htour, Hdata. subst tour.
  destruct (search_tour_hits _ _ _ _ _ Hst Hin) as (rs & r & Hrs & Hrin & He & Hh).
  exists tu, data, rs, r. auto 10.
Qed.

(** [includes] finds an occurrence. *)
Lemma is_prefix_true q s :
  is_prefix q s = true -> exists post, s = String.append q post.
Proof.
  revert s; induction q as [|a q IH]; intros s H.
  - exists s. reflexivity.
  - destruct s as [|b s]; simpl in H; [discriminate|].
    apply andb_prop in H as (Hab & H).
    apply Ascii.eqb_eq in Hab as ->.
    destruct (IH s H) as (post & ->). exists post. reflexivity.
Qed.

Lemma includes_contains s q : includes s q = true -> contains s q.
Proof.
  induction s as [|c s IH]; simpl; intros H.
  - rewrite orb_false_r in H. apply is_prefix_true in H as (post & E).
    exists "", post. exact E.
  - apply orb_prop in H as [H|H].
    + apply is_prefix_true in H as (post & E). exists "", post. exact E.
    + destruct (IH H) as (pre & post & ->).
      exists (String c pre), post. reflexivity.
Qed.

Lemma includes_empty s : includes s "" = true.
Proof.
  destruct s; reflexivity.
Qed.

Lemma contains_in_empty q : contains "" q -> q = "".
Proof.
  intros (pre & post & E). destruct pre; [|discriminate].
  destruct q; [reflexivity | discriminate].
Qed.

Lemma lowered_contains v n q :
  lowered v = Ok n -> includes n (toLowerCase q) = true -> contains_ci v q.
Proof.
  intros Hv Hi. apply includes_contains in Hi.
  destruct v; simpl in *; try discriminate; injection Hv as <-;
    auto using contains_in_empty.
Qed.

Lemma search_entry_matches q tour r hit :
  search_entry (toLowerCase q) tour r = Ok [hit] -> matches_query q hit.
Proof.
  intros H. apply search_entry_Ok in H as (_ & n & f & la & Hn & Hf & Hl & Hif).
  destruct (includes n (toLowerCase q)) eqn:En;
    [|destruct (includes f (toLowerCase q)) eqn:Ef;
      [|destruct (includes la (toLowerCase q)) eqn:El]];
    simpl in Hif; try discriminate;
    destruct Hif as (h & Hh & E); injection E as ->;
    unfold search_hit in Hh; inv_bind Hh; injection Hh as <-;
    unfold matches_query; simpl.
  - left. eapply lowered_contains; eassumption.
  - right; left. eapply lowered_contains; eassumption.
  - right; right. eapply lowered_contains; eassumption.
Qed.

(** *** Sorting by a numeric key *)

(** Rounding keeps the sign: a comparator that subtracts two integer keys
    orders them as the exact difference does. *)
Lemma positive_round_double d : positive (round_double d) = (0 <? d).
Proof.
  unfold round_double.
  destruct (Z.abs d <? 2 ^ 53) eqn:E; [reflexivity|].
  apply Z.ltb_ge in E.
  assert (H53 : 0 < 2 ^ 53) by (apply Z.pow_pos_nonneg; lia).
  assert (Ha : 0 < Z.abs d) by lia.
  assert (Hl : 53 <= Z.log2 (Z.abs d)).
  { rewrite <- (Z.log2_pow2 53) by lia. now apply Z.log2_le_mono. }
  set (s := Z.log2 (Z.abs d) - 52).
  assert (Hs : 0 < 2 ^ s) by (apply Z.pow_pos_nonneg; unfold s; lia).
  assert (Hq : 0 < Z.abs d / 2 ^ s).
  { apply Z.div_str_pos. split; [exact Hs|].
    transitivity (2 ^ Z.log2 (Z.abs d)).
    - apply Z.pow_le_mono_r; unfold s; lia.
    - now apply Z.log2_spec. }
  set (q' := if (_ || _)%bool then _ else _).
  assert (Hq' : 0 < q') by (unfold q'; destruct (_ || _)%bool; lia).
  assert (Hm : 0 < q' * 2 ^ s) by now apply Z.mul_pos_pos.
  destruct (2 ^ 1024 <=? q' * 2 ^ s); simpl.
  - destruct (d <? 0) eqn:Ed, (0 <? d) eqn:Ed'; simpl; auto;
      try apply Z.ltb_lt in Ed; try apply Z.ltb_ge in Ed;
      try apply Z.ltb_lt in Ed'; try apply Z.ltb_ge in Ed'; lia.
  - destruct (0 <? d) eqn:Ed'.
    + apply Z.ltb_lt in Ed'. apply Z.ltb_lt.
      rewrite Z.sgn_pos by exact Ed'. lia.
    + apply Z.ltb_ge in Ed'. apply Z.ltb_ge.
      rewrite Z.sgn_neg by lia. lia.
Qed.

Lemma positive_num_sub x y :
  positive (num_sub (Num x) (Num y)) = (0 <? x - y).
Proof. apply positive_round_double. Qed.

Section SortedFacts.
Context {A : Type} (cmp : A -> A -> result num) (key : A -> Z).


Lemma insert_sorted x l l' :
  (forall y, In y l ->
     exists n, cmp x y = Ok n /\ positive n = (0 <? key x - key y)) ->
  StronglySorted (fun a b => key a <= key b) l ->
  insert cmp x l = Ok l' -> StronglySorted (fun a b => key a <= key b) l'.
Proof.
  revert l'; induction l as [|y l IH]; simpl; intros l' Hc Hs H.
  - injection H as <-. repeat constructor.
  - inv_bind H. destruct (Hc y (or_introl eq_refl)) as (n & Hn & Hpos).
    rewrite Hn in Ha. injection Ha as <-. rewrite Hpos in H.
    apply StronglySorted_inv in Hs as (Hs & Hy).
    destruct (0 <? key x - key y) eqn:E.
    + inv_bind H. injection H as <-.
      constructor; [apply IH; auto|].
      apply insert_Permutation in Ha.
      rewrite Forall_forall in *. intros z Hz.
      apply Permutation_in with (l' := x :: l) in Hz; [|now symmetry].
      destruct Hz as [<-|Hz]; [simpl; lia | now apply Hy].
    + injection H as <-.
      constructor; [constructor; auto|].
      constructor; [lia|].
      rewrite Forall_forall in *. intros z Hz.
      specialize (Hy z Hz). simpl in *. lia.
Qed.

Lemma sort_sorted l l' :
  (forall x y, In x l -> In y l ->
     exists n, cmp x y = Ok n /\ positive n = (0 <? key x - key y)) ->
  sort cmp l = Ok l' -> StronglySorted (fun a b => key a <= key b) l'.
Proof.
  revert l'; induction l as [|x l IH]; simpl; intros l' Hc H.
  - injection H as <-. constructor.
  - inv_bind H. eapply insert_sorted; [| |exact H].
    + intros y Hy. apply Hc; [now left | right].
      eapply Permutation_in; [symmetry; eapply sort_Permutation|]; eassumption.
    + apply IH; auto.
Qed.

End SortedFacts.

Section StableFacts.
Context {A : Type} (cmp : A -> A -> result num) (key : A -> Z).

Lemma insert_stable x l l' k :
  (forall y, In y l ->
     exists n, cmp x y = Ok n /\ positive n = (0 <? key x - key y)) ->
  insert cmp x l = Ok l' ->
  filter (fun e => key e =? k) l' = filter (fun e => key e =? k) (x :: l).
Proof.
  revert l'; induction l as [|y l IH]; simpl; intros l' Hc H.
  - now injection H as <-.
  - inv_bind H. destruct (Hc y (or_introl eq_refl)) as (n & Hn & Hpos).
    rewrite Hn in Ha. injection Ha as <-. rewrite Hpos in H.
    destruct (0 <? key x - key y) eqn:E.
    + inv_bind H. injection H as <-. simpl.
      rewrite (IH a); auto. simpl.
      apply Z.ltb_lt in E.
      destruct (key y =? k) eqn:Ey; [|reflexivity].
      apply Z.eqb_eq in Ey.
      replace (key x =? k) with false by (symmetry; apply Z.eqb_neq; lia).
      reflexivity.
    + now injection H as <-.
Qed.

Lemma sort_stable l l' k :
  (forall x y, In x l -> In y l ->
     exists n, cmp x y = Ok n /\ positive n = (0 <? key x - key y)) ->
  sort cmp l = Ok l' ->
  filter (fun e => key e =? k) l' = filter (fun e => key e =? k) l.
Proof.
  revert l'; induction l as [|x l IH]; simpl; intros l' Hc H.
  - now injection H as <-.
  - inv_bind H. rewrite (insert_stable x a l' k); [| |exact H].
    + simpl. rewrite (IH a); auto.
    + intros y Hy. apply Hc; [now left | right].
      eapply Permutation_in; [symmetry; eapply sort_Permutation|]; eassumption.
Qed.

End StableFacts.

Lemma by_rank_numeric a b :
  has_rank a -> has_rank b ->
  exists n, by_rank a b = Ok n /\ positive n = (0 <? rank_of a - rank_of b).
Proof.
  unfold has_rank, by_rank, js_sub. intros -> ->.
  eexists. split; [reflexivity | apply positive_num_sub].
Qed.

Lemma hit_has_rank input hit :
  upstream_ranks_numeric input -> hit_from_upstream input hit -> has_rank hit.
Proof.
  intros Hnum (tu & data & rs & r & Htu & Hd & Hrs & Hr & _ & Hh).
  specialize (Hnum tu data rs Htu Hd Hrs). rewrite Forall_forall in Hnum.
  destruct (Hnum r Hr) as (z & Hz).
  unfold search_hit in Hh. inv_bind Hh. injection Hh as <-.
  unfold has_rank, rank_of. simpl. now rewrite Hz.
Qed.

(** *** The search on given upstream answers *)

Lemma Forall2_choice {A B} (R : A -> B -> Prop) (l : list A) :
  (forall x, In x l -> exists y, R x y) -> exists l', Forall2 R l l'.
Proof.
  induction l as [|x l IH]; intros H.
  - exists []. constructor.
  - destruct (H x (or_introl eq_refl)) as (y & Hy).
    destruct IH as (l' & Hl'); [intros z Hz; apply H; now right|].
    exists (y :: l'). now constructor.
Qed.

Lemma fetch_tour_fetched tu res :
  fetched_tour tu res -> outcome (fetch_tour tu) = Ok res.
Proof.
  destruct res as [tour data]. intros (Htour & Hdata). simpl in *.
  unfold fetch_tour, and_then, outcome in *. simpl. rewrite Hdata.
  simpl. now subst tour.
Qed.

Lemma player_search_outcome input results :
  Forall2 fetched_tour (searched input) results ->
  outcome (player_search input) = search_output results input.
Proof.
  intros H. unfold player_search, and_then, promise_all, outcome. simpl.
  fold (searched input). rewrite mapM_map.
  rewrite (mapM_Forall2 _ _ results); [reflexivity|].
  induction H; constructor; auto. now apply fetch_tour_fetched.
Qed.

Lemma search_tour_empty query tour data :
  ranks_listed data [] -> search_tour query (tour, data) = Ok [].
Proof.
  intros (found & Hf & Hi). unfold search_tour. rewrite Hf. simpl.
  rewrite Hi. reflexivity.
Qed.

Lemma search_output_empty results input :
  Forall (fun res => ranks_listed (snd res) []) results ->
  exists out,
    search_output results input = Ok out /\
    get (get out "output") "found" = JNum (Num 0) /\
    get (get out "output") "players" = JArr [].
Proof.
  intros H. unfold search_output.
  assert (E : exists perTour,
             mapM (search_tour (toLowerCase (s_query input))) results
               = Ok perTour /\ List.concat perTour = []).
  { induction H as [|[tour data] results Hd _ (perTour & Hm & Hc)].
    - exists []. auto.
    - exists ([] :: perTour). cbn [mapM]. simpl in Hd.
      rewrite (search_tour_empty _ _ _ Hd). cbn [bind]. rewrite Hm. auto. }
  destruct E as (perTour & Hm & Hc). rewrite Hm. cbn [bind]. rewrite Hc.
  simpl. eexists. split; [reflexivity|]. split; reflexivity.
Qed.

Lemma player_search_empty input :
  upstream_ranks_empty input ->
  exists out,
    outcome (player_search input) = Ok out /\
    get (get out "output") "found" = JNum (Num 0) /\
    get (get out "output") "players" = JArr [].
Proof.
  intros H.
  destruct (Forall2_choice
              (fun tu res => fetched_tour tu res /\ ranks_listed (snd res) [])
              (searched input)) as (results & HF).
  { intros tu Htu. destruct (H tu Htu) as (data & Hd & Hrs).
    exists (fst tu, data). repeat split; auto. }
  rewrite (player_search_outcome input results).
  - apply search_output_empty.
    eapply Forall2_Forall_r; [exact HF|]. now intros tu res (_ & Hr).
  - eapply Forall2_impl; [|exact HF]. now intros tu res (Hf & _).
Qed.

(** With the empty (lowered) query every entry pushes its hit. *)
Lemma search_entry_empty_query tour r l :
  search_entry "" tour r = Ok l ->
  exists hit, search_hit tour r = Ok hit /\ l = [hit].
Proof.
  intros H. apply search_entry_Ok in H as (_ & n & f & la & _ & _ & _ & Hif).
  now rewrite includes_empty in Hif.
Qed.

Lemma search_tour_empty_query res hits :
  search_tour "" res = Ok hits -> tour_hits res hits.
Proof.
  destruct res as [tour data]. intros H.
  apply search_tour_Ok in H as (rs & pushed & Hrs & HF & ->).
  exists rs. split; [exact Hrs|]. simpl. clear Hrs.
  induction HF as [|r l rs pushed Hr _ IH]; simpl; [constructor|].
  apply search_entry_empty_query in Hr as (hit & Hh & ->).
  simpl. now constructor.
Qed.

(** *** News *)




Lemma dedupe_In seen l a :
  In a (dedupe seen l) ->
  In a l /\ existsb (same_value_zero (get a "id")) seen = false.
Proof.
  revert seen; induction l as [|b l IH]; simpl; intros seen H; [contradiction|].
  destruct (existsb (same_value_zero (get b "id")) seen) eqn:E.
  - destruct (IH _ H). auto.
  - destruct H as [<-|H]; [auto|].
    destruct (IH _ H) as (Hin & Hs). split; [auto|].
    simpl in Hs. now apply orb_false_elim in Hs as (_ & Hs).
Qed.





Lemma newest_first_dated a b :
  dated a -> dated b ->
  exists n, newest_first a b = Ok n /\
            positive n = (0 <? - published_at a - - published_at b).
Proof.
  unfold dated, newest_first. intros -> ->.
  eexists. split; [reflexivity|].
  cbn [bind]. rewrite positive_num_sub. f_equal. lia.
Qed.

Lemma descending_newest l :
  StronglySorted (fun x y => - published_at x <= - published_at y) l ->
  StronglySorted newest_order l.
Proof using Type.
  induction 1 as [|x l _ IH Hx]; constructor; auto.
  eapply Forall_impl; [|exact Hx]. unfold newest_order. simpl. intros; lia.
Qed.


Lemma news_Ok input out :
  outcome (news input) = Ok out ->
  exists fetched sorted,
    news_fetched input fetched /\
    sort newest_first fetched = Ok sorted /\
    get (get out "output") "articles"
      = JArr (slice (dedupe [] sorted) 0 (Z.min (n_limit input) 25)).
Proof.
  intros H. apply and_then_Ok in H as (results & Hres & H).
  unfold promise_all, outcome in Hres. simpl in Hres.
  rewrite mapM_map in Hres. apply mapM_Ok in Hres.
  unfold news_output in H. inv_bind H. inv_bind H. injection H as <-.
  exists (List.concat a), a0. split; [|split; auto].
  exists results, a. split; [exact Hres|]. split; [now apply mapM_Ok | reflexivity].
Qed.

(** *** Overview *)

Lemma top5_entry_keys r e :
  top5_entry r = Ok e -> keys e = ["rank"; "name"; "points"].
Proof.
  unfold top5_entry. destruct (nullish r); [discriminate|].
  intros H. now injection H as <-.
Qed.

Lemma top5_shape_ranks data v :
  ranks_slice_map data 5 top5_entry = Ok v -> top5_shape v.
Proof.
  intros H. apply ranks_slice_map_Ok in H as (rs & entries & -> & _ & HF).
  exists entries. repeat split.
  - pose proof (slice_0_length_le rs 5 ltac:(lia)) as Hl.
    apply Forall2_length in HF. lia.
  - eapply Forall2_Forall_r; [exact HF|].
    intros r e. apply top5_entry_keys.
Qed.

(** *** Live matches *)

Section PartitionFacts.
Context {A : Type} (cmp : A -> A -> result num) (p : A -> bool).
Hypothesis cmp_front : forall x y n,
  p x = true -> p y = false -> cmp x y = Ok n -> positive n = false.
Hypothesis cmp_back : forall x y n,
  p x = false -> p y = true -> cmp x y = Ok n -> positive n = true.

Lemma partitioned_all_false (l : list A) :
  Forall (fun x => p x = false) l -> partitioned p l.
Proof.
  intros H. exists [], l. repeat split; auto.
Qed.

Lemma partitioned_cons_true x l :
  p x = true -> partitioned p l -> partitioned p (x :: l).
Proof.
  intros Hx (front & back & -> & Hf & Hb).
  exists (x :: front), back. repeat split; auto.
Qed.

Lemma partitioned_tail x l : partitioned p (x :: l) -> partitioned p l.
Proof.
  intros (front & back & E & Hf & Hb). destruct front as [|y front].
  - simpl in E. subst back. apply partitioned_all_false.
    now inversion Hb.
  - injection E as -> ->. exists front, back. repeat split; auto.
    now inversion Hf.
Qed.

Lemma partitioned_head_false x l :
  partitioned p (x :: l) -> p x = false ->
  Forall (fun y => p y = false) (x :: l).
Proof.
  intros (front & back & E & Hf & Hb) Hx. destruct front as [|y front].
  - simpl in E. now subst back.
  - injection E as <- ->. inversion Hf; congruence.
Qed.

Lemma insert_partitioned x l l' :
  partitioned p l -> insert cmp x l = Ok l' -> partitioned p l'.
Proof.
  revert l'; induction l as [|y l IH]; simpl; intros l' Hp H.
  - injection H as <-. destruct (p x) eqn:Ex.
    + exists [x], []. repeat split; auto.
    + apply partitioned_all_false. auto.
  - inv_bind H. destruct (positive a) eqn:Epos.
    + inv_bind H. injection H as <-.
      destruct (p y) eqn:Ey.
      * apply partitioned_cons_true; [exact Ey|].
        apply IH; [eapply partitioned_tail; exact Hp | exact Ha0].
      * apply partitioned_all_false.
        pose proof (partitioned_head_false _ _ Hp Ey) as Hall.
        assert (Ex : p x = false).
        { destruct (p x) eqn:Ex; [|reflexivity].
          rewrite (cmp_front _ _ _ Ex Ey Ha) in Epos. discriminate. }
        constructor; [exact Ey|].
        apply insert_Permutation in Ha0.
        rewrite Forall_forall. intros z Hz.
        apply Permutation_in with (l' := x :: l) in Hz; [|now symmetry].
        destruct Hz as [<-|Hz]; [exact Ex|].
        inversion Hall as [|? ? _ Hl]; subst.
        rewrite Forall_forall in Hl. now apply Hl.
    + injection H as <-. destruct (p x) eqn:Ex.
      * now apply partitioned_cons_true.
      * apply partitioned_all_false. constructor; [exact Ex|].
        apply (partitioned_head_false _ _ Hp).
        destruct (p y) eqn:Ey; [|reflexivity].
        rewrite (cmp_back _ _ _ Ex Ey Ha) in Epos. discriminate.
Qed.

Lemma sort_partitioned l l' : sort cmp l = Ok l' -> partitioned p l'.
Proof.
  revert l'; induction l as [|x l IH]; simpl; intros l' H.
  - injection H as <-. exists [], []. repeat split; auto.
  - inv_bind H. eapply insert_partitioned; [|exact H]. now apply IH.
Qed.

End PartitionFacts.

Lemma live_first_front x y n :
  isLive x = true -> isLive y = false -> live_first x y = Ok n ->
  positive n = false.
Proof.
  unfold live_first. intros -> -> H. simpl in H. now injection H as <-.
Qed.

Lemma live_first_back x y n :
  isLive x = false -> isLive y = true -> live_first x y = Ok n ->
  positive n = true.
Proof.
  unfold live_first. intros -> -> H. simpl in H. now injection H as <-.
Qed.

Lemma match_of_flag tour event comp m :
  match_of tour event comp = Ok m -> exists b, isLive_is b m.
Proof.
  unfold match_of. destruct (nullish comp); [discriminate|].
  intros H. inv_bind H. injection H as <-. eexists. reflexivity.
Qed.

Lemma tour_matches_flag fetched ms :
  tour_matches fetched = Ok ms -> Forall (fun m => exists b, isLive_is b m) ms.
Proof.
  destruct fetched as [tour data]. unfold tour_matches. intros H.
  inv_bind H. inv_bind H. inv_bind H. injection H as <-.
  apply Forall_concat. apply mapM_Ok in Ha1.
  eapply Forall2_Forall_r; [exact Ha1|].
  intros event ms Hev. simpl in Hev. unfold event_matches in Hev.
  inv_bind Hev. inv_bind Hev. apply mapM_Ok in Hev.
  eapply Forall2_Forall_r; [exact Hev|].
  intros comp m. apply match_of_flag.
Qed.

Lemma live_matches_Ok input out :
  outcome (live_matches input) = Ok out ->
  exists results perTour matches,
    Forall2 (fun res ms => tour_matches res = Ok ms) results perTour /\
    sort live_first (List.concat perTour) = Ok matches /\
    get (get out "output") "matches" = JArr matches /\
    get (get out "output") "totalMatches"
      = JNum (Num (Z.of_nat (List.length matches))) /\
    get (get out "output") "liveCount"
      = JNum (Num (Z.of_nat (List.length (filter isLive matches)))).
Proof.
  intros H. apply and_then_Ok in H as (results & _ & H).
  unfold matches_output in H. inv_bind H. inv_bind H. injection H as <-.
  exists results, a, a0. repeat split; auto. now apply mapM_Ok.
Qed.

Lemma filter_app_partition {A} (p : A -> bool) front back :
  Forall (fun x => p x = true) front ->
  Forall (fun x => p x = false) back ->
  filter p (front ++ back) = front.
Proof.
  intros Hf Hb. rewrite filter_app.
  replace (filter p back) with (@nil A).
  - rewrite app_nil_r. induction Hf as [|x l Hx _ IH]; simpl; [reflexivity|].
    now rewrite Hx, IH.
  - induction Hb as [|x l Hx _ IH]; simpl; [reflexivity|]. now rewrite Hx.
Qed.

(** ** The claims *)

(** C7. [fetchESPN] fails with the error that carries the HTTP status exactly
    when the status of the response is outside 200..299, the status it
    carries is that of the response, and on a status within 200..299 it
    returns the JSON value the body parses to. *)
Theorem fetchESPN_status url status body :
  net url = Response status body ->
  (outcome (fetchESPN url) = Throw (ESPNError status)
   <-> ~ (200 <= status <= 299)) /\
  (forall s, outcome (fetchESPN url) = Throw (ESPNError s) -> s = status) /\
  (200 <= status <= 299 ->
   forall json, body = Some json -> outcome (fetchESPN url) = Ok json).
Proof.
  intros Hnet. unfold fetchESPN, outcome. simpl. rewrite Hnet.
  unfold ok. destruct (200 <=? status) eqn:E1; destruct (status <=? 299) eqn:E2;
    simpl; repeat split; intros; subst;
    try lia; try congruence; try reflexivity;
    try (destruct body; discriminate);
    try (exfalso; apply H; lia).
Qed.

(** C1. In every response of atp-rankings, wta-rankings and player-search,
    each entry is made from an upstream ranking entry [r] (for the rankings
    handlers: one for one and in order from those that
    [slice(0, min(limit, 100))] keeps of the list fetched at the handler's
    address; for the search: from an entry of the list of a tour it
    fetched), with [rank = r.current], [previousRank = r.previous] and
    [movement = r.previous - r.current]; so the entry's [movement] is its
    [previousRank] minus its [rank]. *)
Theorem movement_is_previous_minus_rank :
  (forall input out,
     outcome (atp_rankings input) = Ok out ->
     ranked_from atp_rankings_url input out) /\
  (forall input out,
     outcome (wta_rankings input) = Ok out ->
     ranked_from wta_rankings_url input out) /\
  (forall input out,
     outcome (player_search input) = Ok out ->
     exists players,
       get (get out "output") "players" = JArr players /\
       Forall (found_from input) players).
Proof.
  split; [|split].
  - intros input out H. apply atp_rankings_Ok in H as (entries & Hr & _).
    eapply rankings_response_from; exact Hr.
  - intros input out H. apply wta_rankings_Ok in H as (entries & Hr & _).
    eapply rankings_response_from; exact Hr.
  - intros input out H.
    apply player_search_hits in H as (players & Hp & _ & _ & HF).
    exists players. split; [exact Hp|].
    eapply Forall_impl; [|exact HF].
    intros hit (tu & data & rs & r & Htu & Hd & Hrs & Hr & _ & Hh).
    split; [now apply search_hit_Ok in Hh|].
    exists tu, data, rs, r.
    split; [exact Htu|]. split; [exact Hd|]. split; [exact Hrs|].
    split; [exact Hr|]. eapply search_hit_from; exact Hh.
Qed.

(** C6. The free overview lists at most five entries per tour, whatever the
    upstream lists hold, and each entry has the keys [rank], [name] and
    [points] only. *)
Theorem overview_top5 out :
  outcome overview = Ok out ->
  top5_shape (get (get (get out "output") "atp") "players") /\
  top5_shape (get (get (get out "output") "wta") "players").
Proof.
  intros H. apply and_then_Ok in H as (datas & _ & H).
  destruct datas as [|atpData [|wtaData [|]]]; try discriminate.
  unfold overview_output in H. inv_bind H. inv_bind H. injection H as <-.
  simpl. split; eapply top5_shape_ranks; eassumption.
Qed.

(** C9. In a rankings response [totalRanked] is the length of the list
    returned under [rankings], which holds the entries made from the
    truncated upstream list. *)
Theorem totalRanked_is_returned_length input out :
  outcome (atp_rankings input) = Ok out \/
  outcome (wta_rankings input) = Ok out ->
  exists url entries,
    rankings_response url (Z.min (r_limit input) 100) out entries /\
    get (get out "output") "rankings" = JArr entries /\
    get (get out "output") "totalRanked"
      = JNum (Num (Z.of_nat (List.length entries))).
Proof.
  intros [H|H];
    [apply atp_rankings_Ok in H; exists atp_rankings_url
    |apply wta_rankings_Ok in H; exists wta_rankings_url];
    destruct H as (entries & Hr & Ht); exists entries; repeat split; auto;
    destruct Hr as (? & ? & _ & _ & Hr & _); exact Hr.
Qed.

(** C4. The matches of a live-matches response split into a front of
    entries with [isLive] true and a back of entries with [isLive] false;
    [liveCount] is the length of the front, the number of live entries, and
    [totalMatches] less the number of entries that are not live. *)
Theorem live_matches_partition input out :
  outcome (live_matches input) = Ok out ->
  exists matches live rest,
    get (get out "output") "matches" = JArr matches /\
    matches = live ++ rest /\
    Forall (isLive_is true) live /\
    Forall (isLive_is false) rest /\
    get (get out "output") "liveCount"
      = JNum (Num (Z.of_nat (List.length live))) /\
    get (get out "output") "totalMatches"
      = JNum (Num (Z.of_nat (List.length matches))) /\
    Z.of_nat (List.length live)
      = Z.of_nat (List.length matches) - Z.of_nat (List.length rest).
Proof.
  intros H.
  apply live_matches_Ok in H
    as (results & perTour & matches & HF & Hs & Hm & Ht & Hl).
  assert (Hflag : Forall (fun m => exists b, isLive_is b m) matches).
  { eapply sort_Forall; [exact Hs|]. apply Forall_concat.
    eapply Forall2_Forall_r; [exact HF|].
    intros res ms. apply tour_matches_flag. }
  destruct (sort_partitioned live_first isLive live_first_front
              live_first_back _ _ Hs) as (live & rest & E & Hlive & Hrest).
  subst matches. exists (live ++ rest), live, rest.
  rewrite Hl, (filter_app_partition isLive live rest Hlive Hrest).
  apply Forall_app in Hflag as (Fl & Fr).
  repeat split; auto.
  - rewrite Forall_forall in *. intros m Hin.
    destruct (Fl m Hin) as (b & Hb). specialize (Hlive m Hin).
    unfold isLive in Hlive. rewrite Hb in Hlive. simpl in Hlive.
    now subst b.
  - rewrite Forall_forall in *. intros m Hin.
    destruct (Fr m Hin) as (b & Hb). specialize (Hrest m Hin).
    unfold isLive in Hrest. rewrite Hb in Hrest. simpl in Hrest.
    now subst b.
  - rewrite length_app. lia.
Qed.

(** C5, amended.  Every player returned by player-search has a [name],
    [firstName] or [lastName] that contains the query without regard to
    case, an absent name being searched as the empty string; [found] is
    the number of players returned; when the upstream ranks are numbers the
    players are in ascending order of rank; and when every tour searched
    answers with an empty ranking list the response has [found] 0 and no
    players. *)
Theorem player_search_matches_sorted input :
  (forall out,
     outcome (player_search input) = Ok out ->
     exists players,
       get (get out "output") "players" = JArr players /\
       get (get out "output") "found"
         = JNum (Num (Z.of_nat (List.length players))) /\
       Forall (matches_query (s_query input)) players /\
       (upstream_ranks_numeric input ->
        Forall has_rank players /\ ascending players)) /\
  (upstream_ranks_empty input ->
   exists out,
     outcome (player_search input) = Ok out /\
     get (get out "output") "found" = JNum (Num 0) /\
     get (get out "output") "players" = JArr []).
Proof.
  split; [|apply player_search_empty].
  intros out H.
  apply player_search_hits in H as (players & Hp & Hf & (pushed & Hs) & HF).
  exists players. repeat split; auto.
  - eapply Forall_impl; [|exact HF].
    intros hit (tu & data & rs & r & _ & _ & _ & _ & He & _).
    eapply search_entry_matches; exact He.
  - eapply Forall_impl; [|exact HF]. intros hit. now apply hit_has_rank.
  - eapply sort_sorted; [|exact Hs].
    assert (Hr : forall x, In x pushed -> has_rank x).
    { intros x Hx. apply hit_has_rank with (input := input); [assumption|].
      rewrite Forall_forall in HF. apply HF.
      eapply Permutation_in; [eapply sort_Permutation|]; eassumption. }
    intros x y Hx Hy. apply by_rank_numeric; auto.
Qed.

(** C10. The schema accepts the empty query, and with it the players
    returned are the hits of all entries of the upstream lists of the tours
    searched, reordered by the sort, [found] being their number. *)
Theorem empty_query_returns_all input out :
  toLowerCase "" = "" ->
  s_query input = "" ->
  outcome (player_search input) = Ok out ->
  search_schema (JObj [("query", JStr "")])
    = Ok {| s_query := ""; s_tour := both |} /\
  exists results perTour players,
    Forall2 fetched_tour (searched input) results /\
    Forall2 tour_hits results perTour /\
    get (get out "output") "players" = JArr players /\
    Permutation (List.concat perTour) players /\
    get (get out "output") "found"
      = JNum (Num (Z.of_nat (List.length (List.concat perTour)))).
Proof.
  intros Hlow Hq H. split; [reflexivity|].
  apply player_search_Ok in H
    as (results & perTour & sorted & Hres & HF & Hs & Hp & Hf).
  rewrite Hq, Hlow in HF.
  exists results, perTour, sorted. repeat split; auto.
  - eapply Forall2_impl; [|exact HF].
    intros res hits. apply search_tour_empty_query.
  - eapply sort_Permutation; exact Hs.
Qed.

(** C8, amended.  The schema of player-search asks for a string under
    [query]: an input without one is rejected before anything is sent
    upstream; a string, the empty one included, passes, and the handler runs
    and sends its requests. *)
Theorem query_must_be_string raw :
  ((forall q, get raw "query" <> JStr q) ->
   entrypoint search_schema player_search raw = ([], Throw ValidationError)) /\
  (forall fields q tour,
     raw = JObj fields ->
     get raw "query" = JStr q ->
     z_tour_default (get raw "tour") = Ok tour ->
     entrypoint search_schema player_search raw
       = player_search {| s_query := q; s_tour := tour |} /\
     requests (entrypoint search_schema player_search raw)
       = map snd (searched {| s_query := q; s_tour := tour |}) /\
     requests (entrypoint search_schema player_search raw) <> []).
Proof.
  split.
  - intros Hq. unfold entrypoint, search_schema, z_object.
    destruct raw; try reflexivity.
    destruct (get (JObj fields) "query") eqn:E; try reflexivity.
    now destruct (Hq s).
  - intros fields q tour -> Hq Ht.
    assert (E : entrypoint search_schema player_search (JObj fields)
                = player_search {| s_query := q; s_tour := tour |}).
    { unfold entrypoint, search_schema, z_object. rewrite Hq.
      cbn [z_string bind]. rewrite Ht. reflexivity. }
    rewrite E. split; [reflexivity|].
    destruct tour; split; try reflexivity; discriminate.
Qed.


(** ** Further properties *)

(** *** Rankings *)

Lemma slice_0_length {A} (l : list A) (n : Z) :
  Z.of_nat (List.length (slice l 0 n))
  = if n <? 0 then Z.max (Z.of_nat (List.length l) + n) 0
    else Z.min n (Z.of_nat (List.length l)).
Proof.
  rewrite slice_0, length_firstn. unfold clamp_index.
  destruct (n <? 0) eqn:E; lia.
Qed.

Lemma Forall2_map_eq {A B C} (f : A -> C) (g : B -> C) l l' :
  Forall2 (fun x y => g y = f x) l l' -> map g l' = map f l.
Proof.
  induction 1; simpl; congruence.
Qed.

Lemma mapM_Throw {A B} (f : A -> result B) (l : list A) (err : error) :
  (forall x e, f x = Throw e -> e = err) ->
  (exists x e, In x l /\ f x = Throw e) ->
  mapM f l = Throw err.
Proof.
  intros Hall (x & e & Hin & Hx). induction l as [|y l IH]; [contradiction|].
  simpl. destruct (f y) as [b|e'] eqn:Ey.
  - destruct Hin as [->|Hin]; [congruence|]. simpl. now rewrite IH.
  - simpl. f_equal. eapply Hall; eassumption.
Qed.

(** Induction on a value, through the elements of an array. *)
Lemma jsval_elems_ind (P : jsval -> Prop) :
  P JUndefined -> P JNull -> (forall b, P (JBool b)) ->
  (forall n, P (JNum n)) -> (forall s, P (JStr s)) ->
  (forall l, Forall P l -> P (JArr l)) -> (forall fs, P (JObj fs)) ->
  forall v, P v.
Proof.
  intros Hu Hn Hb Hnum Hs Ha Ho. fix F 1.
  intros [| |b|n|s|l|fs];
    [exact Hu | exact Hn | apply Hb | apply Hnum | apply Hs | | apply Ho].
  apply Ha. induction l as [|x l IH]; constructor; [apply F | exact IH].
Qed.

(** The conversions throw nothing but a [TypeError]. *)
Lemma ToString_Throw v e : ToString v = Throw e -> e = TypeError.
Proof.
  revert e. induction v as [| |b|n|s|l Hl|fs] using jsval_elems_ind;
    intros e; try discriminate.
  - destruct b; discriminate.
  - simpl. induction Hl as [|x l' Hx Hl IH]; [discriminate|].
    destruct l' as [|y l''].
    + destruct (nullish x); [discriminate | apply Hx].
    + intros H.
      assert (Hx' : forall e', (if nullish x then Ok "" else ToString x)
                               = Throw e' -> e' = TypeError).
      { intros e'. destruct (nullish x); [discriminate | apply Hx]. }
      destruct (if nullish x then Ok "" else ToString x) as [sx|ex] eqn:Ex.
      * simpl in H.
        match type of H with
        | bind ?m _ = _ => destruct m as [r|er] eqn:Em
        end; [discriminate|].
        simpl in H. injection H as <-. now apply IH.
      * simpl in H. injection H as <-. now apply Hx'.
  - simpl. destruct (has_key "toString" fs); [congruence | discriminate].
Qed.

Lemma ToNumber_Throw v e : ToNumber v = Throw e -> e = TypeError.
Proof.
  destruct v; unfold ToNumber; try discriminate; intros H;
    match type of H with
    | bind ?m _ = _ => destruct m eqn:E; [discriminate|]
    end;
    cbn [bind] in H; injection H as <-; eapply ToString_Throw; exact E.
Qed.

Lemma js_sub_Throw a b e : js_sub a b = Throw e -> e = TypeError.
Proof.
  unfold js_sub. destruct (ToNumber a) eqn:Ea; simpl.
  - destruct (ToNumber b) eqn:Eb; simpl; [discriminate|].
    intros H. injection H as <-. eapply ToNumber_Throw; exact Eb.
  - intros H. injection H as <-. eapply ToNumber_Throw; exact Ea.
Qed.

Lemma ranking_entry_Throw r e : ranking_entry r = Throw e -> e = TypeError.
Proof.
  unfold ranking_entry. destruct (nullish r); [congruence|].
  destruct (js_sub _ _) eqn:E; simpl; [discriminate|].
  intros H. injection H as <-. eapply js_sub_Throw; exact E.
Qed.

Lemma rankings_output_unreadable label data input :
  unreadable_rankings data (Z.min (r_limit input) 100) ->
  rankings_output label data input = Throw TypeError.
Proof.
  unfold rankings_output, ranks_slice_map.
  intros [Hd | [(ranks & Hr & Hn & Hna) | (rs & r & Hr & Hin & Hnull)]].
  - unfold ranks_of, prop. now rewrite Hd.
  - rewrite Hr. simpl. rewrite Hn.
    destruct ranks; try discriminate; try reflexivity.
    now destruct (Hna elems).
  - rewrite Hr. simpl.
    rewrite (mapM_Throw ranking_entry _ TypeError); [reflexivity| |].
    + apply ranking_entry_Throw.
    + exists r, TypeError. split; [exact Hin|].
      unfold ranking_entry. now rewrite Hnull.
Qed.

Lemma rankings_output_empty label data input :
  ranks_read data [] -> rankings_output label data input = Ok (no_rankings label).
Proof.
  unfold rankings_output, ranks_slice_map.
  intros (ranks & Hr & [(Hn & _) | ->]); rewrite Hr; simpl.
  - now rewrite Hn.
  - rewrite slice_0, firstn_nil. reflexivity.
Qed.

Lemma and_then_outcome {A B} (p : M A) (k : A -> result B) (a : A) :
  outcome p = Ok a -> outcome (and_then p k) = k a.
Proof.
  unfold and_then, outcome. simpl. now intros ->.
Qed.

(** X1. For an integer limit, the rankings handlers keep the upstream
    order of the list fetched at their own address: the ranks returned are
    the [current] values of the upstream entries that
    [slice(0, min(limit, 100))] keeps, as many as
    [min(limit, 100, length)] for a limit that is not negative and
    [max(length + limit, 0)] for a negative one. *)
Theorem rankings_follow_upstream input out :
  (outcome (atp_rankings input) = Ok out ->
   follows_upstream atp_rankings_url input out) /\
  (outcome (wta_rankings input) = Ok out ->
   follows_upstream wta_rankings_url input out).
Proof.
  assert (E : forall url entries,
             rankings_response url (Z.min (r_limit input) 100) out entries ->
             follows_upstream url input out).
  { intros url entries (data & rs & Hd & Hrs & Hr & HF).
    exists data, rs, entries.
    split; [exact Hd|]. split; [exact Hrs|]. split; [exact Hr|]. split.
    - apply Forall2_map_eq. eapply Forall2_impl; [|exact HF].
      intros r e He. simpl in He.
      now apply ranking_entry_Ok in He as (_ & -> & _).
    - rewrite <- (Forall2_length HF), slice_0_length.
      destruct (r_limit input <? 0) eqn:E1.
      + apply Z.ltb_lt in E1.
        replace (Z.min (r_limit input) 100 <? 0) with true
          by (symmetry; apply Z.ltb_lt; lia).
        f_equal. lia.
      + apply Z.ltb_ge in E1.
        replace (Z.min (r_limit input) 100 <? 0) with false
          by (symmetry; apply Z.ltb_ge; lia).
        reflexivity. }
  split; intros H;
    [apply atp_rankings_Ok in H | apply wta_rankings_Ok in H];
    destruct H as (entries & Hr & _); eapply E; exact Hr.
Qed.

(** X2. When the upstream document has no ranks (the optional chain
    [rankings?.[0]?.ranks] ends in undefined or null, or the list is empty),
    a rankings handler answers with [totalRanked] 0 and an empty list; it
    does not fail. *)
Theorem rankings_absent_give_empty input :
  (forall data,
     outcome (fetchESPN atp_rankings_url) = Ok data -> ranks_read data [] ->
     outcome (atp_rankings input) = Ok (no_rankings "ATP")) /\
  (forall data,
     outcome (fetchESPN wta_rankings_url) = Ok data -> ranks_read data [] ->
     outcome (wta_rankings input) = Ok (no_rankings "WTA")).
Proof.
  split; intros data Hd Hr.
  - unfold atp_rankings. rewrite (and_then_outcome _ _ _ Hd).
    now apply rankings_output_empty.
  - unfold wta_rankings. rewrite (and_then_outcome _ _ _ Hd).
    now apply rankings_output_empty.
Qed.

(** X3. A rankings handler throws a [TypeError] when the upstream document
    is null, when [ranks] is there but is no array, and when one of the
    entries within the limit is null. *)
Theorem rankings_unreadable_throw input :
  (forall data,
     outcome (fetchESPN atp_rankings_url) = Ok data ->
     unreadable_rankings data (Z.min (r_limit input) 100) ->
     outcome (atp_rankings input) = Throw TypeError) /\
  (forall data,
     outcome (fetchESPN wta_rankings_url) = Ok data ->
     unreadable_rankings data (Z.min (r_limit input) 100) ->
     outcome (wta_rankings input) = Throw TypeError).
Proof.
  split; intros data Hd Hr.
  - unfold atp_rankings. rewrite (and_then_outcome _ _ _ Hd).
    now apply rankings_output_unreadable.
  - unfold wta_rankings. rewrite (and_then_outcome _ _ _ Hd).
    now apply rankings_output_unreadable.
Qed.

(** *** Upstream failures *)

Lemma mapM_first_Throw {A B} (f : A -> result B) (l : list A) :
  (exists x e, In x l /\ f x = Throw e) ->
  exists x e, In x l /\ f x = Throw e /\ mapM f l = Throw e.
Proof.
  intros (x & e & Hin & Hx). induction l as [|y l IH]; [contradiction|].
  simpl. destruct (f y) as [b|e'] eqn:Ey.
  - destruct Hin as [->|Hin]; [congruence|].
    destruct (IH Hin) as (x' & e'' & Hin' & Hx' & Hm).
    exists x', e''. rewrite Hm. auto.
  - exists y, e'. auto.
Qed.

Lemma promise_all_fails {A B} (f : A -> M B) (g : A -> string) (xs : list A)
    (k : list B -> result jsval) :
  (forall x, requests (f x) = [g x]) ->
  (forall x e, outcome (f x) = Throw e <->
               outcome (fetchESPN (g x)) = Throw e) ->
  fails_with_upstream (map g xs) (and_then (promise_all (map f xs)) k).
Proof.
  intros Hreq Hout. split.
  - unfold and_then, promise_all, requests at 1. simpl.
    induction xs as [|x xs IH]; simpl; [reflexivity|].
    now rewrite Hreq, IH.
  - intros (url & e & Hin & He).
    apply in_map_iff in Hin as (x & <- & Hin).
    destruct (mapM_first_Throw (fun x => outcome (f x)) xs)
      as (x' & e' & Hin' & Hx' & Hm).
    { exists x, e. split; [exact Hin | now apply Hout]. }
    exists (g x'), e'. split; [now apply in_map|]. split; [now apply Hout|].
    unfold and_then, promise_all, outcome at 1. simpl.
    now rewrite mapM_map, Hm.
Qed.

Lemma single_fetch_fails url (k : jsval -> result jsval) :
  fails_with_upstream [url] (and_then (fetchESPN url) k).
Proof.
  split; [reflexivity|].
  intros (u & e & Hin & He). destruct Hin as [Hu|[]]. subst u.
  exists url, e. split; [now left|]. split; [exact He|].
  change (outcome (and_then (fetchESPN url) k))
    with (bind (outcome (fetchESPN url)) k).
  now rewrite He.
Qed.

Lemma fetch_tour_fails tu e :
  outcome (fetch_tour tu) = Throw e <->
  outcome (fetchESPN (snd tu)) = Throw e.
Proof.
  change (outcome (fetch_tour tu))
    with (bind (outcome (fetchESPN (snd tu))) (fun data => Ok (fst tu, data))).
  destruct (outcome (fetchESPN (snd tu))); simpl; split; congruence.
Qed.

(** X4. Every handler sends exactly the requests of the tours selected,
    all of them even when an earlier one fails, and when one of them fails
    (no connection, a status outside 200..299, a body that is not JSON) the
    handler fails with the error of a failed request: there is no partial
    result. *)
Theorem upstream_failure_fails_handler :
  fails_with_upstream [atp_rankings_url; wta_rankings_url] overview /\
  (forall input, fails_with_upstream [atp_rankings_url] (atp_rankings input)) /\
  (forall input, fails_with_upstream [wta_rankings_url] (wta_rankings input)) /\
  (forall input, fails_with_upstream (news_urls input) (news input)) /\
  (forall input,
     fails_with_upstream (scoreboard_urls input) (live_matches input)) /\
  (forall input, fails_with_upstream (search_urls input) (player_search input)).
Proof using Type.
  split; [|split; [|split; [|split; [|split]]]]; try intros input.
  - apply (promise_all_fails fetchESPN (fun u => u)
             [atp_rankings_url; wta_rankings_url]); [reflexivity | intros x e; reflexivity].
  - apply single_fetch_fails.
  - apply single_fetch_fails.
  - unfold news_urls. rewrite <- (map_id (selected _ _ _)) at 1.
    apply (promise_all_fails fetchESPN (fun u => u)); [reflexivity | intros x e; reflexivity].
  - apply (promise_all_fails fetch_tour snd);
      [reflexivity | apply fetch_tour_fails].
  - apply (promise_all_fails fetch_tour snd);
      [reflexivity | apply fetch_tour_fails].
Qed.

(** *** News *)

Lemma dedupe_length seen l :
  (List.length (dedupe seen l) <= List.length l)%nat.
Proof.
  revert seen; induction l as [|a l IH]; simpl; intros seen; [lia|].
  destruct (existsb _ seen); simpl; [specialize (IH seen) | specialize (IH (get a "id" :: seen))]; lia.
Qed.

Lemma dedupe_sorted (R : jsval -> jsval -> Prop) seen l :
  StronglySorted R l -> StronglySorted R (dedupe seen l).
Proof.
  intros H. revert seen.
  induction H as [|a l Hs IH Ha]; simpl; intros seen; [constructor|].
  destruct (existsb _ seen); [apply IH|].
  constructor; [apply IH|].
  rewrite Forall_forall in *. intros b Hb.
  apply dedupe_In in Hb as (Hb & _). now apply Ha.
Qed.

Lemma sorted_prefix {A} (R : A -> A -> Prop) (l rest : list A) :
  StronglySorted R (l ++ rest) -> StronglySorted R l.
Proof.
  induction l as [|a l IH]; simpl; intros H; [constructor|].
  apply StronglySorted_inv in H as (Hs & Ha).
  constructor; [now apply IH|].
  now apply Forall_app in Ha as (Ha & _).
Qed.

Lemma article_Ok a art : article a = Ok art -> article_shape art.
Proof.
  unfold article. destruct (nullish a); [discriminate|].
  intros H. inv_bind H. injection H as <-.
  split; [reflexivity|]. simpl.
  unfold categories_of in Ha. destruct (nullish (get a "categories")).
  - injection Ha as <-. now left.
  - inv_bind Ha. destruct a1; try discriminate. injection Ha as <-.
    right. eexists. split; [reflexivity|].
    rewrite Forall_forall. intros c Hc. now apply filter_In in Hc.
Qed.

Lemma articles_of_shape data arts :
  articles_of data = Ok arts -> Forall article_shape arts.
Proof.
  unfold articles_of. intros H. inv_bind H. inv_bind H.
  destruct (or_else a (JArr [])); try discriminate.
  simpl in Ha0. inv_bind Ha0. injection Ha0 as <-.
  simpl in H. injection H as <-.
  apply mapM_Ok in Ha1. eapply Forall2_Forall_r; [exact Ha1|].
  intros x y. apply article_Ok.
Qed.

Lemma news_fetched_shape input fetched :
  news_fetched input fetched -> Forall article_shape fetched.
Proof.
  intros (results & perFeed & _ & HF & ->). apply Forall_concat.
  eapply Forall2_Forall_r; [exact HF|].
  intros data arts. apply articles_of_shape.
Qed.

Lemma news_Ok_count input out :
  outcome (news input) = Ok out ->
  exists articles,
    get (get out "output") "articles" = JArr articles /\
    get (get out "output") "count"
      = JNum (Num (Z.of_nat (List.length articles))) /\
    get (get out "output") "tour" = JStr (tour_name (n_tour input)).
Proof.
  intros H. apply and_then_Ok in H as (results & _ & H).
  unfold news_output in H. inv_bind H. inv_bind H. injection H as <-.
  eexists. repeat split.
Qed.

(** X5. The articles of a news response are fetched articles, no more than
    were fetched, [count] is their number, and for a limit that is not
    negative there are at most [min(limit, 25)]. *)
Theorem news_articles_bounded input out :
  outcome (news input) = Ok out ->
  exists fetched articles,
    news_fetched input fetched /\
    get (get out "output") "articles" = JArr articles /\
    get (get out "output") "count"
      = JNum (Num (Z.of_nat (List.length articles))) /\
    incl articles fetched /\
    (List.length articles <= List.length fetched)%nat /\
    (0 <= n_limit input ->
     Z.of_nat (List.length articles) <= Z.min (n_limit input) 25).
Proof.
  intros H. pose proof (news_Ok_count _ _ H) as (articles & Ha & Hc & _).
  apply news_Ok in H as (fetched & sorted & Hf & Hs & Ha').
  rewrite Ha in Ha'. injection Ha' as ->.
  exists fetched. eexists. repeat split; eauto.
  - intros a Hin.
    destruct (slice_0_prefix (dedupe [] sorted) (Z.min (n_limit input) 25))
      as (rest & E).
    assert (Hd : In a (dedupe [] sorted))
      by (rewrite E; apply in_or_app; now left).
    apply dedupe_In in Hd as (Hd & _).
    eapply Permutation_in; [symmetry; eapply sort_Permutation|]; eassumption.
  - destruct (slice_0_prefix (dedupe [] sorted) (Z.min (n_limit input) 25))
      as (rest & E).
    pose proof (dedupe_length [] sorted) as Hl.
    rewrite E, length_app in Hl.
    rewrite (sort_length _ _ _ Hs) in Hl. lia.
  - intros Hl. apply slice_0_length_le. lia.
Qed.

(** X6. When every fetched article has a date under [published], the
    articles of a news response stand newest first: no article is
    published before one that follows it. *)
Theorem news_newest_first input out :
  outcome (news input) = Ok out ->
  exists fetched articles,
    news_fetched input fetched /\
    get (get out "output") "articles" = JArr articles /\
    (Forall dated fetched -> StronglySorted newest_order articles).
Proof using Type.
  intros H. apply news_Ok in H as (fetched & sorted & Hf & Hs & Ha).
  exists fetched. eexists. repeat split; eauto.
  intros Hdated.
  destruct (slice_0_prefix (dedupe [] sorted) (Z.min (n_limit input) 25))
    as (rest & E).
  apply sorted_prefix with (rest := rest). rewrite <- E.
  apply dedupe_sorted.
  assert (Hsorted : StronglySorted
                      (fun x y => - published_at x <= - published_at y)
                      sorted).
  { eapply sort_sorted; [|exact Hs].
    rewrite Forall_forall in Hdated.
    intros x y Hx Hy. apply newest_first_dated; auto. }
  now apply descending_newest.
Qed.

(** X7. Every article of a news response has the nine keys of the mapping
    and no other, and its [categories] are undefined (the upstream article
    had none) or a list from which the falsy descriptions are gone. *)
Theorem news_articles_shape input out :
  outcome (news input) = Ok out ->
  exists articles,
    get (get out "output") "articles" = JArr articles /\
    Forall article_shape articles.
Proof.
  intros H. destruct (news_articles_bounded _ _ H)
    as (fetched & articles & Hf & Ha & _ & Hincl & _).
  exists articles. split; [exact Ha|].
  apply news_fetched_shape in Hf. rewrite Forall_forall in *.
  intros a Hin. apply Hf, Hincl, Hin.
Qed.

(** *** Live matches *)

Lemma or_else_truthy a b : truthy b -> truthy (or_else a b).
Proof.
  unfold truthy, or_else. destruct (ToBoolean a) eqn:E; auto.
Qed.

Lemma truthy_present v : truthy v -> present v.
Proof.
  unfold truthy, present. destruct v; simpl; congruence.
Qed.

Lemma or_else_present a b : present b -> present (or_else a b).
Proof.
  unfold or_else. destruct (ToBoolean a) eqn:E; auto.
  intros _. now apply truthy_present.
Qed.

Lemma match_player_shape c p : match_player c = Ok p -> competitor_shape p.
Proof.
  unfold match_player. destruct (nullish c); [discriminate|].
  intros H. inv_bind H. injection H as <-.
  destruct (or_else (get c "linescores") (JArr [])); try discriminate.
  simpl in Ha. inv_bind Ha. injection Ha as <-.
  split; [reflexivity|]. split; [now apply or_else_truthy|].
  split; [now apply or_else_present|]. simpl. eauto.
Qed.

Lemma match_of_shape tour event comp m :
  match_of tour event comp = Ok m ->
  match_shape m /\ get m "tour" = JStr tour.
Proof.
  unfold match_of. destruct (nullish comp); [discriminate|].
  intros H. inv_bind H. injection H as <-.
  destruct (or_else (get comp "competitors") (JArr [])); try discriminate.
  simpl in Ha. inv_bind Ha. injection Ha as <-.
  split; [|reflexivity].
  split; [reflexivity|]. split; [now apply or_else_truthy|].
  split; [now apply or_else_truthy|]. split; [now apply or_else_present|].
  split; [now apply or_else_present|]. split; [now apply or_else_present|].
  split; [eexists; reflexivity|].
  eexists. split; [reflexivity|].
  apply mapM_Ok in Ha0. eapply Forall2_Forall_r; [exact Ha0|].
  intros c p. apply match_player_shape.
Qed.

Lemma Forall2_concat {A B} (R : A -> B -> Prop) ls ls' :
  Forall2 (Forall2 R) ls ls' -> Forall2 R (List.concat ls) (List.concat ls').
Proof.
  induction 1; simpl; [constructor | now apply Forall2_app].
Qed.

(** The matches of a tour are made, one by one and in order, from its
    competitions. *)
Lemma tour_matches_competitions tour data ms :
  tour_matches (tour, data) = Ok ms ->
  exists comps,
    competitions_of data = Ok comps /\
    Forall2 (fun comp m => exists event, match_of tour event comp = Ok m)
            comps ms.
Proof.
  unfold tour_matches, competitions_of. intros H.
  inv_bind H. inv_bind H. inv_bind H. injection H as <-.
  rewrite Ha. cbn [bind]. rewrite Ha0. cbn [bind]. clear Ha Ha0.
  apply mapM_Ok in Ha1.
  assert (E : exists compss,
             Forall2 (fun event comps =>
                        bind (prop event "competitions")
                             (fun c => iterate (or_else c (JArr [])))
                        = Ok comps) a0 compss /\
             Forall2 (Forall2 (fun comp m =>
                        exists event, match_of tour event comp = Ok m))
                     compss a1).
  { induction Ha1 as [|event ms evs mss He _ (compss & H1 & H2)].
    - exists []. split; constructor.
    - unfold event_matches in He.
      apply bind_Ok in He as (c & Hc & He).
      apply bind_Ok in He as (cs & Hcs & He).
      apply mapM_Ok in He. exists (cs :: compss).
      split; [constructor; [now rewrite Hc | exact H1]
             |constructor; [|exact H2]].
      eapply Forall2_impl; [|exact He].
      intros comp m Hm. exists event. exact Hm. }
  destruct E as (compss & H1 & H2).
  exists (List.concat compss). split; [|now apply Forall2_concat].
  now rewrite (mapM_Forall2 _ _ _ H1).
Qed.

Lemma live_matches_fetched input out :
  outcome (live_matches input) = Ok out ->
  exists results perTour matches,
    Forall2 fetched_tour (scoreboards input) results /\
    Forall2 (fun res ms => tour_matches res = Ok ms) results perTour /\
    Permutation (List.concat perTour) matches /\
    sort live_first (List.concat perTour) = Ok matches /\
    get (get out "output") "matches" = JArr matches /\
    get (get out "output") "totalMatches"
      = JNum (Num (Z.of_nat (List.length matches))).
Proof.
  intros H. apply and_then_Ok in H as (results & Hres & H).
  apply promise_all_fetch_tour in Hres.
  unfold matches_output in H. inv_bind H. inv_bind H. injection H as <-.
  exists results, a, a0. repeat split; auto.
  - now apply mapM_Ok.
  - eapply sort_Permutation; eassumption.
Qed.

(** X8. [totalMatches] counts the competitions of all events of all
    scoreboards fetched: an event without competitions adds nothing, every
    competition adds one match. *)
Theorem live_matches_counts_competitions input out :
  outcome (live_matches input) = Ok out ->
  exists results perBoard,
    Forall2 fetched_tour (scoreboards input) results /\
    Forall2 (fun res comps => competitions_of (snd res) = Ok comps)
            results perBoard /\
    get (get out "output") "totalMatches"
      = JNum (Num (Z.of_nat (List.length (List.concat perBoard)))).
Proof.
  intros H. apply live_matches_fetched in H
    as (results & perTour & matches & Hres & HF & Hperm & _ & _ & Ht).
  assert (E : exists perBoard,
             Forall2 (fun res comps => competitions_of (snd res) = Ok comps)
                     results perBoard /\
             List.length (List.concat perBoard)
             = List.length (List.concat perTour)).
  { clear - HF. induction HF as [|[tour data] ms results perTour Hm _ IH].
    - exists []. split; [constructor | reflexivity].
    - destruct IH as (perBoard & H1 & H2).
      apply tour_matches_competitions in Hm as (comps & Hc & Hf).
      exists (comps :: perBoard). split; [now constructor|].
      simpl. rewrite !length_app, H2. now rewrite (Forall2_length Hf). }
  destruct E as (perBoard & H1 & H2).
  exists results, perBoard. repeat split; auto.
  rewrite Ht, H2. now rewrite (Permutation_length Hperm).
Qed.

(** X10. Every match returned has the nine keys of the mapping, the label
    of a scoreboard that was fetched, a status and a tournament name that
    are never empty (the defaults 'Unknown' and 'Tournament' step in), a
    round, a venue and a completion flag that are never undefined or null,
    a boolean [isLive], and players with a name that is never empty. *)
Theorem live_matches_shape input out :
  outcome (live_matches input) = Ok out ->
  exists matches,
    get (get out "output") "matches" = JArr matches /\
    Forall (fun m => match_shape m /\ labelled_by (scoreboards input) m)
           matches.
Proof.
  intros H. apply live_matches_fetched in H
    as (results & perTour & matches & Hres & HF & Hperm & _ & Hm & _).
  exists matches. split; [exact Hm|].
  rewrite Forall_forall. intros m Hin.
  apply Permutation_in with (l' := List.concat perTour) in Hin;
    [|now symmetry].
  apply In_concat_inv in Hin as (ms & Hms & Hin).
  destruct (Forall2_In_r _ _ _ _ HF Hms) as ([tour data] & Hr & Ht).
  destruct (Forall2_In_r _ _ _ _ Hres Hr) as (tu & Htu & Htour & _).
  simpl in Htour. subst tour.
  apply tour_matches_competitions in Ht as (comps & _ & Hf).
  destruct (Forall2_In_r _ _ _ _ Hf Hin) as (comp & _ & event & Hmatch).
  apply match_of_shape in Hmatch as (Hshape & Hlabel).
  split; [exact Hshape | exists tu; auto].
Qed.

Section OrderFacts.
Context {A : Type} (cmp : A -> A -> result num) (le : A -> A -> Prop).
Hypothesis le_trans : forall x y z, le x y -> le y z -> le x z.

Lemma insert_ordered x l l' :
  (forall y n, In y l -> cmp x y = Ok n ->
               if positive n then le y x else le x y) ->
  StronglySorted le l ->
  insert cmp x l = Ok l' -> StronglySorted le l'.
Proof.
  revert l'; induction l as [|y l IH]; simpl; intros l' Hc Hs H.
  - injection H as <-. repeat constructor.
  - inv_bind H. pose proof (Hc y a (or_introl eq_refl) Ha) as Hxy.
    apply StronglySorted_inv in Hs as (Hs & Hy).
    destruct (positive a).
    + inv_bind H. injection H as <-.
      constructor;
        [apply IH; auto; intros y0 n Hy0; apply Hc; now right|].
      apply insert_Permutation in Ha0.
      rewrite Forall_forall in *. intros z Hz.
      apply Permutation_in with (l' := x :: l) in Hz; [|now symmetry].
      destruct Hz as [<-|Hz]; [exact Hxy | now apply Hy].
    + injection H as <-.
      constructor; [constructor; auto|].
      constructor; [exact Hxy|].
      rewrite Forall_forall in *. intros z Hz. eauto.
Qed.

Lemma sort_ordered l l' :
  (forall x y n, In x l -> In y l -> cmp x y = Ok n ->
                 if positive n then le y x else le x y) ->
  sort cmp l = Ok l' -> StronglySorted le l'.
Proof.
  revert l'; induction l as [|x l IH]; simpl; intros l' Hc H.
  - injection H as <-. constructor.
  - inv_bind H. eapply insert_ordered; [| |exact H].
    + intros y n Hy. apply Hc; [now left | right].
      eapply Permutation_in; [symmetry; eapply sort_Permutation|]; eassumption.
    + apply IH; [|exact Ha]. intros y z n Hy Hz. apply Hc; now right.
Qed.

End OrderFacts.

Lemma live_order_trans a b c :
  live_order a b -> live_order b c -> live_order a c.
Proof.
  unfold live_order.
  intros [(Ha & Hb) | (Hab & Ht)] [(Hb' & Hc) | (Hbc & Ht')];
    try congruence.
  - left. split; congruence.
  - left. split; congruence.
  - right. split; [congruence | lia].
Qed.

Lemma live_first_order a b n :
  start_dated a -> start_dated b -> live_first a b = Ok n ->
  if positive n then live_order b a else live_order a b.
Proof.
  unfold start_dated, live_first, live_order. intros Ha Hb.
  destruct (isLive a) eqn:Ea, (isLive b) eqn:Eb; cbn [andb negb];
    try rewrite Ha; try rewrite Hb; cbn [bind];
    intros H; injection H as <-;
    rewrite ?positive_num_sub, ?positive_round_double;
    try (now left; split).
  - destruct (0 <? started_at a - started_at b) eqn:E;
      right; split; auto; lia.
  - destruct (0 <? started_at a - started_at b) eqn:E;
      right; split; auto; lia.
Qed.

(** X9. When every returned match has a date under [startTime], the
    matches are in order: the live ones before the others, and among the
    live ones, as among the others, by ascending start. *)
Theorem live_matches_by_start input out :
  outcome (live_matches input) = Ok out ->
  exists matches,
    get (get out "output") "matches" = JArr matches /\
    (Forall start_dated matches -> StronglySorted live_order matches).
Proof.
  intros H. apply live_matches_fetched in H
    as (results & perTour & matches & _ & _ & Hperm & Hs & Hm & _).
  exists matches. split; [exact Hm|]. intros Hd.
  eapply sort_ordered; [exact live_order_trans| |exact Hs].
  rewrite Forall_forall in Hd.
  intros x y n Hx Hy. apply live_first_order; apply Hd;
    eapply Permutation_in; eassumption.
Qed.

(** *** Player search *)

Lemma is_prefix_append q post : is_prefix q (String.append q post) = true.
Proof.
  induction q as [|c q IH]; simpl; [reflexivity|].
  now rewrite Ascii.eqb_refl, IH.
Qed.

Lemma contains_includes s q : contains s q -> includes s q = true.
Proof.
  intros (pre & post & ->). induction pre as [|c pre IH].
  - change (String.append "" (String.append q post))
      with (String.append q post).
    pose proof (is_prefix_append q post) as Hp.
    destruct (String.append q post); simpl in *; now rewrite Hp.
  - change (includes (String c (String.append pre (String.append q post))) q
            = true).
    simpl. rewrite IH. apply orb_true_r.
Qed.

Lemma Forall2_In_l {A B} (R : A -> B -> Prop) l l' x :
  Forall2 R l l' -> In x l -> exists y, In y l' /\ R x y.
Proof.
  induction 1 as [|x' y l l' Hxy _ IH]; simpl; intros Hin; [contradiction|].
  destruct Hin as [<-|Hin]; [exists y; auto|].
  destruct (IH Hin) as (y' & Hy' & HR). exists y'; auto.
Qed.

Lemma ranks_listed_unique data rs rs' :
  ranks_listed data rs -> ranks_listed data rs' -> rs = rs'.
Proof.
  intros (f & Hf & Hi) (f' & Hf' & Hi'). congruence.
Qed.

Lemma In_concat {A} (x : A) (l : list A) (ls : list (list A)) :
  In l ls -> In x l -> In x (List.concat ls).
Proof.
  intros Hl Hx. induction ls as [|l' ls IH]; simpl; [contradiction|].
  apply in_or_app. destruct Hl as [->|Hl]; auto.
Qed.

Lemma entry_matches_includes q r n f la :
  entry_matches q r ->
  lowered (oprop (get r "athlete") "displayName") = Ok n ->
  lowered (oprop (get r "athlete") "firstName") = Ok f ->
  lowered (oprop (get r "athlete") "lastName") = Ok la ->
  includes n (toLowerCase q) || includes f (toLowerCase q)
  || includes la (toLowerCase q) = true.
Proof.
  intros (field & s & Hin & Hs & Hc) Hn Hf Hl.
  apply contains_includes in Hc.
  destruct Hin as [<-|[<-|[<-|[]]]]; rewrite Hs in *; simpl in *.
  - injection Hn as <-. now rewrite Hc.
  - injection Hf as <-. rewrite Hc. now rewrite orb_true_r.
  - injection Hl as <-. rewrite Hc. now rewrite orb_true_r.
Qed.

(** X11. The search misses nothing: when player-search answers, every
    entry of the upstream list of a tour searched that has a display, first
    or last name containing the query, without regard to case, has its hit
    among the players returned. *)
Theorem player_search_finds_all input out :
  outcome (player_search input) = Ok out ->
  exists players,
    get (get out "output") "players" = JArr players /\
    forall tu data rs r,
      In tu (searched input) -> outcome (fetchESPN (snd tu)) = Ok data ->
      ranks_listed data rs -> In r rs ->
      entry_matches (s_query input) r ->
      exists hit, search_hit (fst tu) r = Ok hit /\ In hit players.
Proof.
  intros H. apply player_search_Ok in H
    as (results & perTour & sorted & Hres & HF & Hs & Hp & _).
  exists sorted. split; [exact Hp|].
  intros tu data rs r Htu Hd Hrs Hr Hm.
  destruct (Forall2_In_l _ _ _ _ Hres Htu) as ([tour data'] & Hres' & Htour & Hd').
  cbn [fst snd] in Htour, Hd'. subst tour.
  assert (data' = data) by congruence. subst data'.
  destruct (Forall2_In_l _ _ _ _ HF Hres') as (hits & Hhits & Hst).
  apply search_tour_Ok in Hst as (rs' & pushed & Hrs' & Hpushed & ->).
  rewrite (ranks_listed_unique _ _ _ Hrs' Hrs) in Hpushed.
  destruct (Forall2_In_l _ _ _ _ Hpushed Hr) as (l & Hl & He).
  apply search_entry_Ok in He as (_ & n & f & la & Hn & Hf & Hla & Hif).
  rewrite (entry_matches_includes _ _ _ _ _ Hm Hn Hf Hla) in Hif.
  destruct Hif as (hit & Hhit & ->).
  exists hit. split; [exact Hhit|].
  eapply Permutation_in; [eapply sort_Permutation; exact Hs|].
  eapply In_concat; [exact Hhits|].
  eapply In_concat; [exact Hl | now left].
Qed.

(** X12. The case of the query does not matter: two queries that lower to
    the same string get the same players and the same [found], for the same
    tours. *)
Theorem player_search_ignores_case q q' tour out :
  toLowerCase q = toLowerCase q' ->
  outcome (player_search {| s_query := q; s_tour := tour |}) = Ok out ->
  exists out',
    outcome (player_search {| s_query := q'; s_tour := tour |}) = Ok out' /\
    get (get out' "output") "players" = get (get out "output") "players" /\
    get (get out' "output") "found" = get (get out "output") "found".
Proof.
  intros Hq H. apply and_then_Ok in H as (results & Hres & H).
  unfold player_search. simpl s_tour in *.
  rewrite (and_then_outcome _ _ _ Hres).
  unfold search_output in *. simpl s_query in *. rewrite <- Hq.
  inv_bind H. inv_bind H. injection H as <-.
  rewrite Ha. cbn [bind]. rewrite Ha0. cbn [bind].
  eexists. split; [reflexivity|]. split; reflexivity.
Qed.

(** X13. Every player returned has the eleven keys of the mapping and,
    under [tour], the label of a tour that was searched: a search of the ATP
    alone returns no WTA player. *)
Theorem player_search_shape input out :
  outcome (player_search input) = Ok out ->
  exists players,
    get (get out "output") "players" = JArr players /\
    Forall (fun e => hit_shape e /\ labelled_by (searched input) e) players.
Proof.
  intros H. apply player_search_hits in H as (players & Hp & _ & _ & HF).
  exists players. split; [exact Hp|].
  eapply Forall_impl; [|exact HF].
  intros hit (tu & data & rs & r & Htu & _ & _ & _ & _ & Hh).
  unfold search_hit in Hh. inv_bind Hh. injection Hh as <-.
  split; [reflexivity | exists tu; auto].
Qed.

(** X14. Ties keep the upstream order: when the upstream ranks are
    numbers, the players returned with a given rank are the hits of that
    rank in the order they were pushed, the ATP list before the WTA list and
    each list from top to bottom. *)
Theorem player_search_keeps_ties input out :
  upstream_ranks_numeric input ->
  outcome (player_search input) = Ok out ->
  exists results perTour players,
    Forall2 fetched_tour (searched input) results /\
    Forall2 (fun res hits =>
               search_tour (toLowerCase (s_query input)) res = Ok hits)
            results perTour /\
    get (get out "output") "players" = JArr players /\
    forall k, ranked_at k players = ranked_at k (List.concat perTour).
Proof.
  intros Hnum H. pose proof (player_search_hits _ _ H)
    as (players & Hp & _ & _ & Hhits).
  apply player_search_Ok in H
    as (results & perTour & sorted & Hres & HF & Hs & Hp' & _).
  rewrite Hp in Hp'. injection Hp' as ->.
  exists results, perTour, sorted. repeat split; auto.
  intros k. unfold ranked_at. eapply sort_stable; [|exact Hs].
  assert (Hr : forall x, In x (List.concat perTour) -> has_rank x).
  { intros x Hx. apply hit_has_rank with (input := input); [assumption|].
    rewrite Forall_forall in Hhits. apply Hhits.
    eapply Permutation_in; [eapply sort_Permutation|]; eassumption. }
  intros x y Hx Hy. apply by_rank_numeric; auto.
Qed.

(** *** Analytics *)

Lemma lookup_set_key_same k v fs : lookup k (set_key k v fs) = v.
Proof.
  induction fs as [|[k' v'] fs IH]; simpl.
  - now rewrite String.eqb_refl.
  - destruct (String.eqb k k') eqn:E; simpl; now rewrite E.
Qed.

Lemma lookup_set_key_other k k' v fs :
  k <> k' -> lookup k (set_key k' v fs) = lookup k fs.
Proof.
  intros Hk. induction fs as [|[k'' v''] fs IH]; simpl.
  - now apply String.eqb_neq in Hk as ->.
  - destruct (String.eqb k' k'') eqn:E; simpl.
    + apply String.eqb_eq in E as <-. now apply String.eqb_neq in Hk as ->.
    + now rewrite IH.
Qed.

(** X15. Without a payment tracker the three analytics handlers answer
    with their empty payloads, whatever the input is: they do not fail. *)
Theorem analytics_without_tracker :
  ToBoolean paymentTracker = false ->
  (forall input, analytics input = Ok no_analytics) /\
  (forall input, analytics_transactions input = Ok no_transactions) /\
  (forall input, analytics_csv input = Ok no_csv).
Proof.
  intros H. unfold analytics, analytics_transactions, analytics_csv.
  rewrite H. repeat split.
Qed.

(** X16. With a tracker and an integer limit, analytics-transactions
    returns the transactions that the collaborator lists cut by
    [slice(0, limit)]: a prefix of the list, of [min(limit, length)]
    transactions for a limit that is not negative and of
    [max(length + limit, 0)] for a negative one. *)
Theorem analytics_transactions_prefix input txs :
  ToBoolean paymentTracker = true ->
  getAllTransactions paymentTracker (t_windowMs input) = Ok (JArr txs) ->
  exists kept rest,
    analytics_transactions input
      = Ok (JObj [("output", JObj [("transactions", JArr kept)])]) /\
    kept = slice txs 0 (t_limit input) /\
    txs = kept ++ rest /\
    Z.of_nat (List.length kept)
    = if t_limit input <? 0
      then Z.max (Z.of_nat (List.length txs) + t_limit input) 0
      else Z.min (t_limit input) (Z.of_nat (List.length txs)).
Proof.
  intros Ht Hg. destruct (slice_0_prefix txs (t_limit input)) as (rest & E).
  exists (slice txs 0 (t_limit input)), rest.
  split; [|split; [reflexivity | split; [exact E | apply slice_0_length]]].
  unfold analytics_transactions. rewrite Ht, Hg. reflexivity.
Qed.

(** X17. With a tracker, when analytics answers, the three totals of its
    output are the strings that the totals of the collaborator's summary
    print as, and every other key has the value the summary gives it. *)
Theorem analytics_totals_are_strings input out :
  ToBoolean paymentTracker = true ->
  analytics input = Ok out ->
  exists summary,
    getSummary paymentTracker (w_windowMs input) = Ok summary /\
    (forall k, In k totals ->
       exists s, get (get out "output") k = JStr s /\
                 ToString (get summary k) = Ok s) /\
    (forall k, ~ In k totals ->
       get (get out "output") k = get summary k).
Proof.
  intros Ht H. unfold analytics in H. rewrite Ht in H. simpl in H.
  apply bind_Ok in H as (summary & Hs & H).
  apply bind_Ok in H as (outgoing & Ho & H).
  apply bind_Ok in H as (incoming & Hi & H).
  apply bind_Ok in H as (net_total & Hn & H).
  injection H as <-.
  assert (Hstr : forall k v,
             bind (prop summary k) call_toString = Ok v ->
             exists s, v = JStr s /\ ToString (get summary k) = Ok s).
  { intros k v Hv. apply bind_Ok in Hv as (t & Hp & Hc).
    unfold prop in Hp. destruct (nullish summary); [discriminate|].
    injection Hp as <-. unfold call_toString in Hc.
    destruct (nullish (get summary k)); [discriminate|].
    apply bind_Ok in Hc as (s & Hs' & Hc). injection Hc as <-. eauto. }
  assert (Hobj : exists fs, summary = JObj fs).
  { destruct (Hstr _ _ Ho) as (s & _ & Hts).
    destruct summary; try (simpl in Ho; discriminate). eauto. }
  destruct Hobj as (fs & ->).
  exists (JObj fs). split; [exact Hs|]. split.
  - intros k Hk. simpl.
    destruct Hk as [<-|[<-|[<-|[]]]].
    + destruct (Hstr _ _ Ho) as (s & -> & Hts). exists s. split; [|exact Hts].
      rewrite !lookup_set_key_other by discriminate.
      apply lookup_set_key_same.
    + destruct (Hstr _ _ Hi) as (s & -> & Hts). exists s. split; [|exact Hts].
      rewrite lookup_set_key_other by discriminate.
      apply lookup_set_key_same.
    + destruct (Hstr _ _ Hn) as (s & -> & Hts). exists s. split; [|exact Hts].
      apply lookup_set_key_same.
  - intros k Hk. simpl.
    rewrite !lookup_set_key_other; [reflexivity| | |];
      intros ->; apply Hk; simpl; auto.
Qed.

(** *** The registration file and the news schema *)

(** X18. Every address of the registration file hangs under one base
    address that starts with [https://]: the web endpoint is the base, the
    image and the A2A endpoint are paths under it; the base is the
    production address when the public domain is not set or is empty. *)
Theorem erc8004_under_base domain :
  exists base,
    is_prefix "https://" base = true /\
    get (erc8004 domain) "image" = JStr (String.append base "/icon.png") /\
    (exists web a2a,
       get (erc8004 domain) "services" = JArr [web; a2a] /\
       get web "endpoint" = JStr base /\
       get a2a "endpoint"
         = JStr (String.append base "/.well-known/agent.json")) /\
    (domain = None \/ domain = Some "" ->
     base = "https://tennis-intel-production.up.railway.app").
Proof.
  exists (baseUrl domain). split; [|split; [reflexivity|split]].
  - destruct domain as [d|]; simpl; [|reflexivity].
    destruct (String.eqb d ""); reflexivity.
  - eexists. eexists. split; reflexivity || (split; reflexivity).
  - intros [-> | ->]; reflexivity.
Qed.

(** X19. The news schema accepts an object whose [tour] is absent or one
    of atp, wta and both and whose [limit] is absent or a number, with both
    and 10 for what is absent, and rejects everything else; no range of the
    limit is checked. *)
Theorem news_schema_accepts raw input :
  news_schema raw = Ok input <->
  exists fields,
    raw = JObj fields /\
    tour_asked (get raw "tour") = Some (n_tour input) /\
    limit_asked (get raw "limit") = Some (n_limit input).
Proof.
  unfold news_schema, z_object. split.
  - destruct raw as [| | | | |l|fs]; try discriminate.
    intros H. exists fs. split; [reflexivity|].
    apply bind_Ok in H as (t & Ht & H). apply bind_Ok in H as (l & Hl & H).
    injection H as <-. simpl n_tour. simpl n_limit.
    split.
    + unfold z_tour_default in Ht. unfold tour_asked.
      destruct (get (JObj fs) "tour") as [| | | |s| |]; try discriminate.
      * now injection Ht as <-.
      * destruct (String.eqb s "atp") eqn:E1;
          [apply String.eqb_eq in E1 as ->; now injection Ht as <-|].
        destruct (String.eqb s "wta") eqn:E2;
          [apply String.eqb_eq in E2 as ->; now injection Ht as <-|].
        destruct (String.eqb s "both") eqn:E3;
          [apply String.eqb_eq in E3 as ->; now injection Ht as <-|].
        discriminate.
    + unfold z_number_default in Hl. unfold limit_asked.
      destruct (get (JObj fs) "limit") as [| | |[|z|]| | |]; try discriminate;
        now injection Hl as <-.
  - intros (fs & -> & Ht & Hl). destruct input as [t l]. simpl in *.
    assert (Et : z_tour_default (lookup "tour" fs) = Ok t).
    { unfold tour_asked in Ht. unfold z_tour_default.
      destruct (lookup "tour" fs) as [| | | |s| |]; try discriminate.
      - now injection Ht as <-.
      - destruct (String.eqb s "atp") eqn:E1.
        + apply String.eqb_eq in E1 as ->. now injection Ht as <-.
        + destruct (String.eqb s "wta") eqn:E2.
          * apply String.eqb_eq in E2 as ->. now injection Ht as <-.
          * destruct (String.eqb s "both") eqn:E3.
            -- apply String.eqb_eq in E3 as ->. now injection Ht as <-.
            -- exfalso. revert Ht E1 E2 E3. clear.
               repeat (destruct s as [|[[|] [|] [|] [|] [|] [|] [|] [|]] s];
                       try discriminate). }
    assert (El : z_number_default 10 (lookup "limit" fs) = Ok l).
    { unfold limit_asked in Hl. unfold z_number_default.
      destruct (lookup "limit" fs) as [| | |[|z|]| | |]; try discriminate;
        now injection Hl as <-. }
    rewrite Et. simpl. rewrite El. reflexivity.
Qed.

End Service.

(** ** The claims on concrete documents *)

(** An absent limit is 50. *)
Example rankings_default_limit :
  rankings_schema (JObj []) = Ok {| r_limit := 50 |}.
Proof. reflexivity. Qed.

(** ATP ranks 1 (before 2), 2 (before 1), 3 with limit 1: one entry, with
    movement +1. *)
Example atp_rankings_limit_1 :
  exists out entry,
    outcome (atp_rankings Engine.StringToNumber Examples.rankings_net
               Examples.clock {| r_limit := 1 |}) = Ok out /\
    get (get out "output") "rankings" = JArr [entry] /\
    get entry "movement" = JNum (Num 1).
Proof.
  eexists. eexists. split; [vm_compute; reflexivity|].
  split; reflexivity.
Qed.

(** A movement is the difference as a double gives it: above 2^53 the
    difference of two ranks is rounded to 53 significant bits (ties to
    even), and a difference beyond the largest double is infinite. *)
Example movement_of_large_ranks :
  js_sub Engine.StringToNumber
    (JNum (Num 9007199254740992)) (JNum (Num (-1)))
  = Ok (Num 9007199254740992) /\
  js_sub Engine.StringToNumber
    (JNum (Num 9007199254740992)) (JNum (Num (-3)))
  = Ok (Num 9007199254740996) /\
  js_sub Engine.StringToNumber
    (JNum (Num (2 ^ 1023))) (JNum (Num (- 2 ^ 1023)))
  = Ok (Inf false) /\
  js_sub Engine.StringToNumber (JNum (Inf false)) (JNum (Inf false))
  = Ok NaN.
Proof. repeat split; vm_compute; reflexivity. Qed.

(** A search over empty upstream lists finds nothing. *)
Example player_search_nothing_upstream :
  exists out,
    outcome (player_search Engine.toLowerCase Engine.StringToNumber
               Examples.empty_net Examples.clock
               {| s_query := "djok"; s_tour := both |}) = Ok out /\
    get (get out "output") "found" = JNum (Num 0) /\
    get (get out "output") "players" = JArr [].
Proof.
  eexists. split; [vm_compute; reflexivity|]. split; reflexivity.
Qed.

(** Two ATP articles with the id [a], published 2024-01-01 and 2024-01-02:
    one article comes back, the one of 2024-01-02. *)
Example news_same_story_twice :
  exists out kept,
    outcome (news Engine.StringToNumber Engine.Date_parse Examples.twice_net
               Examples.clock {| n_tour := atp; n_limit := 10 |}) = Ok out /\
    get (get out "output") "articles" = JArr [kept] /\
    get kept "id" = JStr "a" /\
    get kept "published" = JStr "2024-01-02".
Proof.
  eexists. eexists. split; [vm_compute; reflexivity|].
  split; [reflexivity|]. split; reflexivity.
Qed.

Lemma fetchESPN_status_witness :
  (outcome (fetchESPN Examples.down_net atp_rankings_url)
     = Throw (ESPNError 503) <-> ~ (200 <= 503 <= 299)) /\
  (forall s, outcome (fetchESPN Examples.down_net atp_rankings_url)
             = Throw (ESPNError s) -> s = 503) /\
  (200 <= 503 <= 299 ->
   forall json, None = Some json ->
     outcome (fetchESPN Examples.down_net atp_rankings_url) = Ok json).
Proof.
  apply (fetchESPN_status Examples.down_net atp_rankings_url 503 None).
  reflexivity.
Defined.

Lemma movement_is_previous_minus_rank_witness :
  exists out,
    outcome (atp_rankings Engine.StringToNumber Examples.rankings_net
               Examples.clock {| r_limit := 2 |}) = Ok out /\
    map (fun e => get e "movement")
        (match get (get out "output") "rankings" with
         | JArr l => l
         | _ => []
         end)
    = [JNum (Num 1); JNum (Num (-1))] /\
    ranked_from Engine.StringToNumber Examples.rankings_net
      atp_rankings_url {| r_limit := 2 |} out.
Proof.
  eexists. split; [vm_compute; reflexivity|]. split; [reflexivity|].
  apply (proj1 (movement_is_previous_minus_rank Engine.toLowerCase
                  Engine.StringToNumber Examples.rankings_net Examples.clock)
               {| r_limit := 2 |}).
  vm_compute. reflexivity.
Defined.

Lemma overview_top5_witness :
  exists out,
    outcome (overview Examples.long_net Examples.clock) = Ok out /\
    top5_shape (get (get (get out "output") "atp") "players") /\
    top5_shape (get (get (get out "output") "wta") "players").
Proof.
  eexists. split.
  - vm_compute. reflexivity.
  - apply (overview_top5 Examples.long_net Examples.clock).
    vm_compute. reflexivity.
Defined.

Lemma totalRanked_is_returned_length_witness :
  exists out,
    outcome (atp_rankings Engine.StringToNumber Examples.rankings_net
               Examples.clock {| r_limit := 1 |}) = Ok out /\
    get (get out "output") "totalRanked" = JNum (Num 1) /\
    List.length Examples.atp_three = 3%nat /\
    exists url entries,
      rankings_response Engine.StringToNumber Examples.rankings_net
        url (Z.min 1 100) out entries /\
      get (get out "output") "rankings" = JArr entries /\
      get (get out "output") "totalRanked"
        = JNum (Num (Z.of_nat (List.length entries))).
Proof.
  eexists. split; [|split; [|split]].
  - vm_compute. reflexivity.
  - reflexivity.
  - reflexivity.
  - apply (totalRanked_is_returned_length Engine.StringToNumber
             Examples.rankings_net Examples.clock {| r_limit := 1 |}).
    left. vm_compute. reflexivity.
Defined.

(** C2, at the limit -1 and an upstream list of 102 players: [slice(0, -1)]
    drops the last player only, and atp-rankings returns 101 entries, more
    than [min(-1, 100)] and more than the cap of 100. *)
Theorem negative_limit_exceeds_cap :
  exists out entries,
    rankings_schema (JObj [("limit", JNum (Num (-1)))])
      = Ok {| r_limit := -1 |} /\
    outcome (atp_rankings Engine.StringToNumber Examples.long_net
               Examples.clock {| r_limit := -1 |}) = Ok out /\
    get (get out "output") "rankings" = JArr entries /\
    Z.of_nat (List.length entries) = 101 /\
    ~ Z.of_nat (List.length entries) <= Z.min (-1) 100.
Proof.
  eexists. eexists. split; [reflexivity|]. split; [vm_compute; reflexivity|].
  split; [reflexivity|]. split; [reflexivity|].
  intros H. vm_compute in H. apply H. reflexivity.
Qed.

Lemma live_matches_partition_witness :
  exists out,
    outcome (live_matches Engine.StringToNumber Engine.Date_parse
               Examples.scoreboard_net Examples.clock {| m_tour := atp |})
      = Ok out /\
    get (get out "output") "liveCount" = JNum (Num 2) /\
    exists matches live rest,
      get (get out "output") "matches" = JArr matches /\
      matches = live ++ rest /\
      Forall (isLive_is true) live /\
      Forall (isLive_is false) rest /\
      get (get out "output") "liveCount"
        = JNum (Num (Z.of_nat (List.length live))) /\
      get (get out "output") "totalMatches"
        = JNum (Num (Z.of_nat (List.length matches))) /\
      Z.of_nat (List.length live)
        = Z.of_nat (List.length matches) - Z.of_nat (List.length rest).
Proof.
  eexists. split; [|split].
  - vm_compute. reflexivity.
  - reflexivity.
  - apply (live_matches_partition Engine.StringToNumber Engine.Date_parse
             Examples.scoreboard_net Examples.clock {| m_tour := atp |}).
    vm_compute. reflexivity.
Defined.

(** C5 as it was stated fails for the empty query on an upstream entry that
    has no athlete: the entry is returned, with none of the three names. *)
Lemma nameless_player_returned :
  exists out player,
    outcome (player_search Engine.toLowerCase Engine.StringToNumber
               Examples.nameless_net Examples.clock
               {| s_query := ""; s_tour := atp |}) = Ok out /\
    get (get out "output") "players" = JArr [player] /\
    get player "name" = JUndefined /\
    get player "firstName" = JUndefined /\
    get player "lastName" = JUndefined /\
    ~ Forall (has_matching_name Engine.toLowerCase "") [player].
Proof.
  eexists. eexists. split; [vm_compute; reflexivity|].
  split; [reflexivity|]. repeat (split; [reflexivity|]).
  intros H. inversion H as [|? ? (field & s & Hin & Hget & _) _]; subst.
  destruct Hin as [<-|[<-|[<-|[]]]]; discriminate.
Qed.

Lemma rankings_net_numeric input :
  upstream_ranks_numeric Examples.rankings_net input.
Proof.
  intros tu data rs Htu Hd (found & Hf & Hi).
  assert (E : data = Examples.rankings_doc Examples.atp_three \/
              data = Examples.rankings_doc Examples.wta_two).
  { unfold searched, selected in Htu.
    destruct (s_tour input); simpl in Htu;
      repeat (destruct Htu as [<-|Htu]); try contradiction;
      vm_compute in Hd; injection Hd as <-; auto. }
  destruct E as [-> | ->]; vm_compute in Hf; injection Hf as <-;
    vm_compute in Hi; injection Hi as <-;
    repeat constructor; eexists; reflexivity.
Defined.

Lemma player_search_matches_sorted_witness :
  exists out,
    outcome (player_search Engine.toLowerCase Engine.StringToNumber
               Examples.rankings_net Examples.clock
               {| s_query := "A"; s_tour := both |}) = Ok out /\
    exists players,
      get (get out "output") "players" = JArr players /\
      get (get out "output") "found"
        = JNum (Num (Z.of_nat (List.length players))) /\
      Forall (matches_query Engine.toLowerCase "A") players /\
      Forall has_rank players /\ ascending players.
Proof.
  eexists. split; [vm_compute; reflexivity|].
  destruct (proj1 (player_search_matches_sorted Engine.toLowerCase
                     Engine.StringToNumber Examples.rankings_net
                     Examples.clock {| s_query := "A"; s_tour := both |})
                  _ eq_refl)
    as (players & Hp & Hf & Hm & Hsorted).
  exists players. repeat split; auto; apply Hsorted, rankings_net_numeric.
Defined.

Lemma empty_query_returns_all_witness :
  exists out,
    outcome (player_search Engine.toLowerCase Engine.StringToNumber
               Examples.rankings_net Examples.clock
               {| s_query := ""; s_tour := both |}) = Ok out /\
    get (get out "output") "found" = JNum (Num 5) /\
    search_schema Examples.empty_query
      = Ok {| s_query := ""; s_tour := both |} /\
    exists results perTour players,
      Forall2 (fetched_tour Examples.rankings_net)
              (searched {| s_query := ""; s_tour := both |}) results /\
      Forall2 (tour_hits Engine.StringToNumber) results perTour /\
      get (get out "output") "players" = JArr players /\
      Permutation (List.concat perTour) players /\
      get (get out "output") "found"
        = JNum (Num (Z.of_nat (List.length (List.concat perTour)))).
Proof.
  eexists. split; [vm_compute; reflexivity|]. split; [reflexivity|].
  apply (empty_query_returns_all Engine.toLowerCase Engine.StringToNumber
           Examples.rankings_net Examples.clock
           {| s_query := ""; s_tour := both |});
    reflexivity.
Defined.

(** C8 as it was stated fails: the empty query passes the schema, both
    rankings are fetched and the handler answers. *)
Lemma empty_query_not_rejected :
  requests (entrypoint search_schema
              (player_search Engine.toLowerCase Engine.StringToNumber
                 Examples.rankings_net Examples.clock)
              Examples.empty_query)
    = [atp_rankings_url; wta_rankings_url] /\
  (exists out,
     outcome (entrypoint search_schema
                (player_search Engine.toLowerCase Engine.StringToNumber
                   Examples.rankings_net Examples.clock)
                Examples.empty_query) = Ok out) /\
  entrypoint search_schema
    (player_search Engine.toLowerCase Engine.StringToNumber
       Examples.rankings_net Examples.clock)
    Examples.empty_query
  <> ([], Throw ValidationError).
Proof.
  split; [reflexivity|]. split; [eexists; vm_compute; reflexivity|].
  intros H. apply (f_equal fst) in H. vm_compute in H. discriminate.
Qed.

Lemma query_must_be_string_witness :
  entrypoint search_schema
    (player_search Engine.toLowerCase Engine.StringToNumber
       Examples.rankings_net Examples.clock)
    Examples.empty_query
  = player_search Engine.toLowerCase Engine.StringToNumber
      Examples.rankings_net Examples.clock
      {| s_query := ""; s_tour := both |} /\
  requests (entrypoint search_schema
              (player_search Engine.toLowerCase Engine.StringToNumber
                 Examples.rankings_net Examples.clock)
              Examples.empty_query)
  = map snd (searched {| s_query := ""; s_tour := both |}) /\
  requests (entrypoint search_schema
              (player_search Engine.toLowerCase Engine.StringToNumber
                 Examples.rankings_net Examples.clock)
              Examples.empty_query) <> [].
Proof.
  apply (proj2 (query_must_be_string Engine.toLowerCase Engine.StringToNumber
                  Examples.rankings_net Examples.clock Examples.empty_query)
               [("query", JStr "")] "" both);
    reflexivity.
Defined.

(** C3 as it was stated fails when the limit cuts the list: both feeds
    carry the story with id [a], the newer story [b] comes first, and with
    limit 1 the response holds [b] alone, no article with the id [a]. *)
Lemma news_net_dated input fetched :
  n_tour input = both ->
  news_fetched Examples.news_net input fetched ->
  Forall (dated Engine.StringToNumber Engine.Date_parse) fetched.
Proof.
  intros Ht (results & perFeed & Hres & Hper & ->). rewrite Ht in Hres.
  cbv [selected app] in Hres.
  inversion Hres as [|u1 d1 us1 ds1 Hd1 Hres1]; subst.
  inversion Hres1 as [|u2 d2 us2 ds2 Hd2 Hres2]; subst.
  inversion Hres2; subst.
  vm_compute in Hd1. injection Hd1 as <-.
  vm_compute in Hd2. injection Hd2 as <-.
  inversion Hper as [|x1 a1 xs1 as1 Ha1 Hper1]; subst.
  inversion Hper1 as [|x2 a2 xs2 as2 Ha2 Hper2]; subst.
  inversion Hper2; subst.
  vm_compute in Ha1. injection Ha1 as <-.
  vm_compute in Ha2. injection Ha2 as <-.
  simpl. repeat constructor.
Defined.



(** ** The further properties on concrete documents *)

Lemma rankings_follow_upstream_witness :
  exists out,
    outcome (atp_rankings Engine.StringToNumber Examples.rankings_net
               Examples.clock {| r_limit := 2 |}) = Ok out /\
    follows_upstream Examples.rankings_net atp_rankings_url
      {| r_limit := 2 |} out.
Proof.
  eexists. split; [vm_compute; reflexivity|].
  apply (proj1 (rankings_follow_upstream Engine.StringToNumber
                  Examples.rankings_net Examples.clock
                  {| r_limit := 2 |} _)).
  vm_compute. reflexivity.
Defined.

Lemma rankings_absent_give_empty_witness :
  outcome (atp_rankings Engine.StringToNumber Examples.bare_net
             Examples.clock {| r_limit := 50 |})
  = Ok (no_rankings Examples.clock "ATP").
Proof.
  apply (proj1 (rankings_absent_give_empty Engine.StringToNumber
                  Examples.bare_net Examples.clock {| r_limit := 50 |})
               (JObj [])).
  - reflexivity.
  - exists JUndefined. split; [reflexivity|]. left. split; reflexivity.
Defined.

Lemma rankings_unreadable_throw_witness :
  outcome (atp_rankings Engine.StringToNumber Examples.holed_net
             Examples.clock {| r_limit := 5 |})
  = Throw TypeError.
Proof.
  apply (proj1 (rankings_unreadable_throw Engine.StringToNumber
                  Examples.holed_net Examples.clock {| r_limit := 5 |})
               (Examples.rankings_doc
                  [Examples.ranked 1 1
                     (Examples.athlete "Jannik Sinner" "Jannik" "Sinner");
                   JNull])).
  - reflexivity.
  - right. right. eexists. exists JNull.
    split; [reflexivity|]. split; [|reflexivity].
    vm_compute. right. left. reflexivity.
Defined.

Lemma upstream_failure_fails_handler_witness :
  exists url e,
    In url (search_urls {| s_query := "djok"; s_tour := both |}) /\
    outcome (fetchESPN Examples.down_net url) = Throw e /\
    outcome (player_search Engine.toLowerCase Engine.StringToNumber
               Examples.down_net Examples.clock
               {| s_query := "djok"; s_tour := both |}) = Throw e.
Proof.
  destruct (upstream_failure_fails_handler Engine.toLowerCase
              Engine.StringToNumber Engine.Date_parse Examples.down_net
              Examples.clock) as (_ & _ & _ & _ & _ & Hsearch).
  apply (proj2 (Hsearch {| s_query := "djok"; s_tour := both |})).
  exists atp_rankings_url, (ESPNError 503). split; [left|]; reflexivity.
Defined.

Lemma news_articles_bounded_witness :
  exists out,
    outcome (news Engine.StringToNumber Engine.Date_parse Examples.news_net
               Examples.clock {| n_tour := both; n_limit := 1 |}) = Ok out /\
    exists fetched articles,
      news_fetched Examples.news_net {| n_tour := both; n_limit := 1 |}
        fetched /\
      get (get out "output") "articles" = JArr articles /\
      get (get out "output") "count"
        = JNum (Num (Z.of_nat (List.length articles))) /\
      incl articles fetched /\
      (List.length articles <= List.length fetched)%nat /\
      (0 <= 1 -> Z.of_nat (List.length articles) <= Z.min 1 25).
Proof.
  eexists. split; [vm_compute; reflexivity|].
  apply (news_articles_bounded Engine.StringToNumber Engine.Date_parse
           Examples.news_net Examples.clock
           {| n_tour := both; n_limit := 1 |}).
  vm_compute. reflexivity.
Defined.

Lemma news_newest_first_witness :
  exists out articles,
    outcome (news Engine.StringToNumber Engine.Date_parse Examples.news_net
               Examples.clock {| n_tour := both; n_limit := 10 |}) = Ok out /\
    get (get out "output") "articles" = JArr articles /\
    StronglySorted (newest_order Engine.StringToNumber Engine.Date_parse)
                   articles.
Proof.
  assert (E : exists out,
             outcome (news Engine.StringToNumber Engine.Date_parse
                        Examples.news_net Examples.clock
                        {| n_tour := both; n_limit := 10 |}) = Ok out)
    by (eexists; vm_compute; reflexivity).
  destruct E as (out & E).
  destruct (news_newest_first Engine.StringToNumber Engine.Date_parse
              Examples.news_net Examples.clock
              {| n_tour := both; n_limit := 10 |} out E)
    as (fetched & articles & Hf & Ha & Hsorted).
  exists out, articles. split; [exact E|]. split; [exact Ha|].
  apply Hsorted.
  apply (news_net_dated {| n_tour := both; n_limit := 10 |});
    [reflexivity | exact Hf].
Defined.

Lemma news_articles_shape_witness :
  exists out,
    outcome (news Engine.StringToNumber Engine.Date_parse Examples.news_net
               Examples.clock {| n_tour := both; n_limit := 10 |}) = Ok out /\
    exists articles,
      get (get out "output") "articles" = JArr articles /\
      Forall article_shape articles.
Proof.
  eexists. split; [vm_compute; reflexivity|].
  apply (news_articles_shape Engine.StringToNumber Engine.Date_parse
           Examples.news_net Examples.clock
           {| n_tour := both; n_limit := 10 |}).
  vm_compute. reflexivity.
Defined.

Lemma live_matches_counts_competitions_witness :
  exists out,
    outcome (live_matches Engine.StringToNumber Engine.Date_parse
               Examples.scoreboard_net Examples.clock {| m_tour := both |})
      = Ok out /\
    get (get out "output") "totalMatches" = JNum (Num 8) /\
    exists results perBoard,
      Forall2 (fetched_tour Examples.scoreboard_net)
              (scoreboards {| m_tour := both |}) results /\
      Forall2 (fun res comps => competitions_of (snd res) = Ok comps)
              results perBoard /\
      get (get out "output") "totalMatches"
        = JNum (Num (Z.of_nat (List.length (List.concat perBoard)))).
Proof.
  eexists. split; [vm_compute; reflexivity|]. split; [reflexivity|].
  apply (live_matches_counts_competitions Engine.StringToNumber
           Engine.Date_parse Examples.scoreboard_net Examples.clock
           {| m_tour := both |}).
  vm_compute. reflexivity.
Defined.

Lemma live_matches_by_start_witness :
  exists out matches,
    outcome (live_matches Engine.StringToNumber Engine.Date_parse
               Examples.scoreboard_net Examples.clock {| m_tour := atp |})
      = Ok out /\
    get (get out "output") "matches" = JArr matches /\
    map (fun m => get m "startTime") matches
    = [JStr "2026-01-02"; JStr "2026-01-03"; JStr "2026-01-01";
       JStr "2026-01-04"] /\
    StronglySorted (live_order Engine.StringToNumber Engine.Date_parse)
                   matches.
Proof.
  assert (E : exists out,
             outcome (live_matches Engine.StringToNumber Engine.Date_parse
                        Examples.scoreboard_net Examples.clock
                        {| m_tour := atp |}) = Ok out)
    by (eexists; vm_compute; reflexivity).
  destruct E as (out & E).
  destruct (live_matches_by_start Engine.StringToNumber Engine.Date_parse
              Examples.scoreboard_net Examples.clock {| m_tour := atp |}
              out E) as (matches & Hm & Hsorted).
  exists out, matches. split; [exact E|]. split; [exact Hm|].
  vm_compute in E. injection E as <-.
  vm_compute in Hm. injection Hm as <-.
  split; [reflexivity|]. apply Hsorted. repeat constructor.
Defined.

Lemma live_matches_shape_witness :
  exists out,
    outcome (live_matches Engine.StringToNumber Engine.Date_parse
               Examples.scoreboard_net Examples.clock {| m_tour := atp |})
      = Ok out /\
    exists matches,
      get (get out "output") "matches" = JArr matches /\
      Forall (fun m => match_shape m /\
                       labelled_by (scoreboards {| m_tour := atp |}) m)
             matches.
Proof.
  eexists. split; [vm_compute; reflexivity|].
  apply (live_matches_shape Engine.StringToNumber Engine.Date_parse
           Examples.scoreboard_net Examples.clock {| m_tour := atp |}).
  vm_compute. reflexivity.
Defined.

Lemma player_search_finds_all_witness :
  exists out players hit,
    outcome (player_search Engine.toLowerCase Engine.StringToNumber
               Examples.rankings_net Examples.clock
               {| s_query := "DJOK"; s_tour := both |}) = Ok out /\
    get (get out "output") "players" = JArr players /\
    search_hit Engine.StringToNumber "ATP"
      (Examples.ranked 3 3
         (Examples.athlete "Novak Djokovic" "Novak" "Djokovic")) = Ok hit /\
    In hit players.
Proof.
  assert (E : exists out,
             outcome (player_search Engine.toLowerCase Engine.StringToNumber
                        Examples.rankings_net Examples.clock
                        {| s_query := "DJOK"; s_tour := both |}) = Ok out)
    by (eexists; vm_compute; reflexivity).
  destruct E as (out & E).
  destruct (player_search_finds_all Engine.toLowerCase Engine.StringToNumber
              Examples.rankings_net Examples.clock
              {| s_query := "DJOK"; s_tour := both |} out E)
    as (players & Hp & Hall).
  destruct (Hall ("ATP", atp_rankings_url)
                 (Examples.rankings_doc Examples.atp_three)
                 Examples.atp_three
                 (Examples.ranked 3 3
                    (Examples.athlete "Novak Djokovic" "Novak" "Djokovic")))
    as (hit & Hhit & Hin).
  - left. reflexivity.
  - reflexivity.
  - exists (JArr Examples.atp_three). split; reflexivity.
  - right. right. left. reflexivity.
  - exists "lastName", "Djokovic". split; [right; right; left; reflexivity|].
    split; [reflexivity|]. exists "", "ovic". reflexivity.
  - exists out, players, hit. auto.
Defined.

Lemma player_search_ignores_case_witness :
  exists out out',
    outcome (player_search Engine.toLowerCase Engine.StringToNumber
               Examples.rankings_net Examples.clock
               {| s_query := "DJOK"; s_tour := both |}) = Ok out /\
    outcome (player_search Engine.toLowerCase Engine.StringToNumber
               Examples.rankings_net Examples.clock
               {| s_query := "djok"; s_tour := both |}) = Ok out' /\
    get (get out' "output") "players" = get (get out "output") "players" /\
    get (get out' "output") "found" = get (get out "output") "found".
Proof.
  assert (E : exists out,
             outcome (player_search Engine.toLowerCase Engine.StringToNumber
                        Examples.rankings_net Examples.clock
                        {| s_query := "DJOK"; s_tour := both |}) = Ok out)
    by (eexists; vm_compute; reflexivity).
  destruct E as (out & E).
  destruct (player_search_ignores_case Engine.toLowerCase
              Engine.StringToNumber Examples.rankings_net Examples.clock
              "DJOK" "djok" both out eq_refl E) as (out' & E' & Hp & Hf).
  exists out, out'. auto.
Defined.

Lemma player_search_shape_witness :
  exists out,
    outcome (player_search Engine.toLowerCase Engine.StringToNumber
               Examples.rankings_net Examples.clock
               {| s_query := "a"; s_tour := atp |}) = Ok out /\
    exists players,
      get (get out "output") "players" = JArr players /\
      Forall (fun e => hit_shape e /\
                       labelled_by
                         (searched {| s_query := "a"; s_tour := atp |}) e)
             players.
Proof.
  eexists. split; [vm_compute; reflexivity|].
  apply (player_search_shape Engine.toLowerCase Engine.StringToNumber
           Examples.rankings_net Examples.clock
           {| s_query := "a"; s_tour := atp |}).
  vm_compute. reflexivity.
Defined.

Lemma player_search_keeps_ties_witness :
  exists out,
    outcome (player_search Engine.toLowerCase Engine.StringToNumber
               Examples.rankings_net Examples.clock
               {| s_query := "a"; s_tour := both |}) = Ok out /\
    map (fun e => (get e "rank", get e "tour"))
        (match get (get out "output") "players" with
         | JArr l => l
         | _ => []
         end)
    = [(JNum (Num 1), JStr "ATP"); (JNum (Num 1), JStr "WTA");
       (JNum (Num 2), JStr "ATP"); (JNum (Num 2), JStr "WTA");
       (JNum (Num 3), JStr "ATP")] /\
    exists results perTour players,
      Forall2 (fetched_tour Examples.rankings_net)
              (searched {| s_query := "a"; s_tour := both |}) results /\
      Forall2 (fun res hits =>
                 search_tour Engine.toLowerCase Engine.StringToNumber
                   (Engine.toLowerCase "a") res = Ok hits)
              results perTour /\
      get (get out "output") "players" = JArr players /\
      forall k, ranked_at k players = ranked_at k (List.concat perTour).
Proof.
  eexists. split; [vm_compute; reflexivity|]. split; [reflexivity|].
  apply (player_search_keeps_ties Engine.toLowerCase Engine.StringToNumber
           Examples.rankings_net Examples.clock
           {| s_query := "a"; s_tour := both |}).
  - apply rankings_net_numeric.
  - vm_compute. reflexivity.
Defined.

Lemma analytics_without_tracker_witness :
  (forall input,
     analytics JUndefined Examples.getSummary input = Ok no_analytics) /\
  (forall input,
     analytics_transactions JUndefined Examples.getAllTransactions input
     = Ok no_transactions) /\
  (forall input,
     analytics_csv JUndefined Examples.exportToCSV input = Ok no_csv).
Proof.
  apply (analytics_without_tracker JUndefined Examples.getSummary
           Examples.getAllTransactions Examples.exportToCSV).
  reflexivity.
Defined.

Lemma analytics_transactions_prefix_witness :
  exists kept rest,
    analytics_transactions Examples.tracker Examples.getAllTransactions
      {| t_windowMs := JUndefined; t_limit := 2 |}
    = Ok (JObj [("output", JObj [("transactions", JArr kept)])]) /\
    kept = slice Examples.transactions 0 2 /\
    Examples.transactions = kept ++ rest /\
    Z.of_nat (List.length kept)
    = if 2 <? 0
      then Z.max (Z.of_nat (List.length Examples.transactions) + 2) 0
      else Z.min 2 (Z.of_nat (List.length Examples.transactions)).
Proof.
  apply (analytics_transactions_prefix Examples.tracker
           Examples.getAllTransactions
           {| t_windowMs := JUndefined; t_limit := 2 |}
           Examples.transactions); reflexivity.
Defined.

Lemma analytics_totals_are_strings_witness :
  exists out,
    analytics Examples.tracker Examples.getSummary
      {| w_windowMs := JUndefined |} = Ok out /\
    get (get out "output") "incomingTotal" = JStr "9007199254740993" /\
    exists summary,
      Examples.getSummary Examples.tracker JUndefined = Ok summary /\
      (forall k, In k totals ->
         exists s, get (get out "output") k = JStr s /\
                   ToString (get summary k) = Ok s) /\
      (forall k, ~ In k totals ->
         get (get out "output") k = get summary k).
Proof.
  eexists. split; [vm_compute; reflexivity|]. split; [reflexivity|].
  apply (analytics_totals_are_strings Examples.tracker Examples.getSummary
           {| w_windowMs := JUndefined |}); reflexivity.
Defined.

Lemma erc8004_under_base_witness :
  exists base,
    is_prefix "https://" base = true /\
    get (erc8004 (Some "tennis.example.com")) "image"
      = JStr (String.append base "/icon.png") /\
    (exists web a2a,
       get (erc8004 (Some "tennis.example.com")) "services"
         = JArr [web; a2a] /\
       get web "endpoint" = JStr base /\
       get a2a "endpoint"
         = JStr (String.append base "/.well-known/agent.json")) /\
    (Some "tennis.example.com" = None \/
     Some "tennis.example.com" = Some "" ->
     base = "https://tennis-intel-production.up.railway.app").
Proof.
  apply (erc8004_under_base (Some "tennis.example.com")).
Defined.

Lemma news_schema_accepts_witness :
  news_schema (JObj [("tour", JStr "atp")])
  = Ok {| n_tour := atp; n_limit := 10 |}.
Proof.
  apply (proj2 (news_schema_accepts (JObj [("tour", JStr "atp")])
                  {| n_tour := atp; n_limit := 10 |})).
  exists [("tour", JStr "atp")]. repeat split.
Defined.
